(** * DustBuster: the location screen ([src/app/index.tsx])

    A shallow embedding of the [LocationApp] React component: its state
    hooks, the two asynchronous handlers [getCurrentLocation] and
    [sendLocationToServer], the helpers they call, and the way React and the
    JavaScript event loop invoke them (mount effects, socket callbacks,
    button presses, timers).

    Handlers are written in a small state/exception/trace monad.  The state is
    the component's hook state; the trace lists, in program order, every
    setter call, platform call, timer registration, alert and console line of
    an invocation.  What the platform answers (services enabled or not, the
    permission outcome, the position fix, the HTTP response) is an input of
    the invocation. *)

From Stdlib Require Import String List ZArith Bool Lia Floats.
Import ListNotations.

Set Warnings "-inexact-float,-register-all".
Local Open Scope string_scope.
Local Open Scope Z_scope.
Local Open Scope list_scope.

(** ** JavaScript values *)

Module Js.

(** A JavaScript [number] is an IEEE 754 binary64 value. *)
Definition number : Type := float.

Inductive Value : Type :=
| Undefined
| Null
| Bool (b : bool)
| Number (n : number)
| String (s : string)
| Object (fields : list (string * Value)).

(** What [throw] carries here: an [Error] object, of which the code reads
    [.message] only. *)
Record Error : Type := mkError { message : string }.

(** The conversion [if (v)] applies. *)
Definition truthy (v : Value) : bool :=
  match v with
  | Undefined | Null => false
  | Bool b => b
  | Number n => negb (PrimFloat.eqb n 0%float || PrimFloat.is_nan n)
  | String s => negb (String.eqb s "")
  | Object _ => true
  end.

Fixpoint lookup (k : string) (fields : list (string * Value)) : Value :=
  match fields with
  | [] => Undefined
  | (k', v) :: rest => if String.eqb k k' then v else lookup k rest
  end.

(** How a statement finishes: normally with a value, or by a [throw]. *)
Inductive Completion (A : Type) : Type :=
| Returned (a : A)
| Thrown (e : Error).
Arguments Returned {A} a.
Arguments Thrown {A} e.

(** Property read [v.k]: a [TypeError] on [null] and [undefined], the field
    on an object, [undefined] on the other primitives. *)
Definition get (v : Value) (k : string) : Completion Value :=
  match v with
  | Undefined =>
      Thrown (mkError ("Cannot read properties of undefined (reading '" ++ k ++ "')")%string)
  | Null =>
      Thrown (mkError ("Cannot read properties of null (reading '" ++ k ++ "')")%string)
  | Object fields => Returned (lookup k fields)
  | _ => Returned Undefined
  end.

End Js.

Import Js.

(** ** Data of the screen *)

(** [Location.LocationObject] of expo-location. *)
Record LocationObjectCoords : Type := {
  latitude : number;
  longitude : number;
  altitude : option number;
  accuracy : option number;
  heading : option number;
  speed : option number
}.

Record LocationObject : Type := {
  coords : LocationObjectCoords;
  timestamp : number
}.

(** [type LocationState = Location.LocationObject | null] *)
Definition LocationState : Type := option LocationObject.

(** [type: 'error' | 'warning'] *)
Inductive Severity : Type := error | warning.

Record LocationError : Type := {
  message : string;
  type : Severity
}.

(** [Region] of react-native-maps. *)
Record Region : Type := {
  region_latitude : number;
  region_longitude : number;
  latitudeDelta : number;
  longitudeDelta : number
}.

(** The five [useState] cells of [LocationApp].  A value of this type is also
    what one render of the component sees: each render binds [location],
    [errorMsg], [mapRegion], [loading] and [retryCount] as constants, and the
    handlers defined in that render close over these constants. *)
Record State : Type := {
  location : LocationState;
  errorMsg : option LocationError;
  mapRegion : option Region;
  loading : bool;
  retryCount : Z
}.

(** The arguments of the [useState] calls. *)
Definition initial : State := {|
  location := None;
  errorMsg := None;
  mapRegion := None;
  loading := true;
  retryCount := 0
|}.

Definition MAX_RETRIES : Z := 3.

(** ** The platform *)

(** [Platform.OS] *)
Inductive OS : Type := ios | android | windows | macos | web.

(** [PermissionsAndroid.RESULTS] *)
Inductive AndroidResult : Type := GRANTED | DENIED | NEVER_ASK_AGAIN.

(** [Location.PermissionStatus] *)
Inductive PermissionStatus : Type := granted | denied | undetermined.

(** [Location.Accuracy] *)
Inductive Accuracy : Type := Lowest | Low | Balanced | High | Highest | BestForNavigation.

(** An axios response; [data] is the parsed body. *)
Record AxiosResponse : Type := {
  status : Z;
  data : Value
}.

(** What the outside world answers during one invocation of a handler.  Each
    handler asks each question at most once. *)
Record Env : Type := {
  Platform_OS : OS;
  hasServicesEnabledAsync : Completion bool;
  PermissionsAndroid_request : Completion AndroidResult;
  requestForegroundPermissionsAsync : Completion PermissionStatus;
  getCurrentPositionAsync : Completion LocationObject;
  axios_post : Completion AxiosResponse
}.

(** ** Observable actions *)

(** The argument of a state setter: a new value, or an updater function
    applied to the cell's current content. *)
Inductive SetStateAction (A : Type) : Type :=
| NewValue (a : A)
| Updater (f : A -> A).
Arguments NewValue {A} a.
Arguments Updater {A} f.

(** The function handed to [setTimeout].  The only one in the file is
    [getCurrentLocation], which is the closure of the render that defined the
    running handler; [render] is that render's bindings. *)
Inductive Callback : Type :=
| GetCurrentLocation (render : State).

Inductive Event : Type :=
| SetLocation (l : LocationState)
| SetErrorMsg (e : option LocationError)
| SetMapRegion (r : option Region)
| SetLoading (b : bool)
| SetRetryCount (a : SetStateAction Z)
| SetTimeout (cb : Callback) (ms : Z)
| AlertAlert (title msg : string)
| ConsoleLog (msg : string)
| ConsoleWarn (msg : string) (e : Error)
| ConsoleError (msg : string) (e : Error)
| AwaitHasServicesEnabled
| AwaitPermissionsAndroidRequest (title msg neutral negative positive : string)
| AwaitRequestForegroundPermissions
| AwaitGetCurrentPosition (a : Accuracy)
| AwaitAxiosPost (url : string) (lat long : number).

Definition Trace : Type := list Event.

(** ** The handler monad *)

Definition M (A : Type) : Type := State -> Completion A * State * Trace.

Definition ret {A} (a : A) : M A := fun s => (Returned a, s, []).

Definition bind {A B} (m : M A) (k : A -> M B) : M B :=
  fun s =>
    match m s with
    | (Returned a, s1, t1) =>
        let '(c, s2, t2) := k a s1 in (c, s2, t1 ++ t2)
    | (Thrown e, s1, t1) => (Thrown e, s1, t1)
    end.

Declare Scope handler_scope.
Delimit Scope handler_scope with handler.
Notation "x <- m ;; k" := (bind m (fun x => k))
  (at level 61, m at next level, right associativity) : handler_scope.
Notation "m ;; k" := (bind m (fun _ => k))
  (at level 61, right associativity) : handler_scope.
Local Open Scope handler_scope.

(** [try { m } catch (e) { h e }] *)
Definition try_catch {A} (m : M A) (h : Error -> M A) : M A :=
  fun s =>
    match m s with
    | (Returned a, s1, t1) => (Returned a, s1, t1)
    | (Thrown e, s1, t1) =>
        let '(c, s2, t2) := h e s1 in (c, s2, t1 ++ t2)
    end.

(** [try { m } finally { f }]: [f] runs whichever way [m] finished, and the
    completion of [m] stands unless [f] itself throws. *)
Definition try_finally {A} (m : M A) (f : M unit) : M A :=
  fun s =>
    let '(c, s1, t1) := m s in
    match f s1 with
    | (Returned _, s2, t2) => (c, s2, t1 ++ t2)
    | (Thrown e, s2, t2) => (Thrown e, s2, t1 ++ t2)
    end.

(** An action that only shows in the trace. *)
Definition emit (ev : Event) : M unit := fun s => (Returned tt, s, [ev]).

(** [await] of a platform call: the call shows in the trace and finishes the
    way the environment says. *)
Definition await {A} (ev : Event) (answer : Completion A) : M A :=
  fun s => (answer, s, [ev]).

(** Lifting of a pure computation that may throw. *)
Definition lift {A} (c : Completion A) : M A := fun s => (c, s, []).

Definition apply_action {A} (a : SetStateAction A) (old : A) : A :=
  match a with
  | NewValue v => v
  | Updater f => f old
  end.

(** What a setter call does to the hook state. *)
Definition apply_event (s : State) (ev : Event) : State :=
  match ev with
  | SetLocation l =>
      {| location := l; errorMsg := errorMsg s; mapRegion := mapRegion s;
         loading := loading s; retryCount := retryCount s |}
  | SetErrorMsg e =>
      {| location := location s; errorMsg := e; mapRegion := mapRegion s;
         loading := loading s; retryCount := retryCount s |}
  | SetMapRegion r =>
      {| location := location s; errorMsg := errorMsg s; mapRegion := r;
         loading := loading s; retryCount := retryCount s |}
  | SetLoading b =>
      {| location := location s; errorMsg := errorMsg s; mapRegion := mapRegion s;
         loading := b; retryCount := retryCount s |}
  | SetRetryCount a =>
      {| location := location s; errorMsg := errorMsg s; mapRegion := mapRegion s;
         loading := loading s; retryCount := apply_action a (retryCount s) |}
  | _ => s
  end.

(** A setter call: recorded in the trace and applied to the state. *)
Definition set (ev : Event) : M unit :=
  fun s => (Returned tt, apply_event s ev, [ev]).

Definition setLocation (l : LocationState) : M unit := set (SetLocation l).
Definition setErrorMsg (e : option LocationError) : M unit := set (SetErrorMsg e).
Definition setMapRegion (r : option Region) : M unit := set (SetMapRegion r).
Definition setLoading (b : bool) : M unit := set (SetLoading b).
Definition setRetryCount (a : SetStateAction Z) : M unit := set (SetRetryCount a).
Definition setTimeout (cb : Callback) (ms : Z) : M unit := emit (SetTimeout cb ms).
Definition Alert_alert (title msg : string) : M unit := emit (AlertAlert title msg).

(** ** The handlers of one render

    Everything below is defined inside the component function, so it exists
    once per render and reads that render's bindings; [render] stands for
    them.  Setters act on the live hook state, which the monad threads. *)

(** [requestAndroidPermission] *)
Definition requestAndroidPermission (env : Env) : M bool :=
  try_catch
    (granted <- await
       (AwaitPermissionsAndroidRequest
          "Location Permission"
          "This app needs access to your location to function properly."
          "Ask Me Later" "Cancel" "OK")
       (PermissionsAndroid_request env) ;;
     ret (match granted with GRANTED => true | _ => false end))
    (fun err =>
       emit (ConsoleWarn "Error requesting Android permission:" err) ;;
       ret false).

(** [checkLocationServices] *)
Definition checkLocationServices (env : Env) : M bool :=
  try_catch
    (enabled <- await AwaitHasServicesEnabled (hasServicesEnabledAsync env) ;;
     if negb enabled then
       setErrorMsg (Some {|
         message := "Location services are disabled. Please enable them in your device settings.";
         type := warning |}) ;;
       ret false
     else
       ret true)
    (fun err =>
       emit (ConsoleError "Error checking location services:" err) ;;
       ret false).

(** [getCurrentLocation] *)
Definition getCurrentLocation (render : State) (env : Env) : M bool :=
  setLoading true ;;
  setErrorMsg None ;;
  try_finally
    (try_catch
       (servicesEnabled <- checkLocationServices env ;;
        if negb servicesEnabled then ret false else
        hasPermission <-
          match Platform_OS env with
          | android => requestAndroidPermission env
          | _ =>
              status <- await AwaitRequestForegroundPermissions
                          (requestForegroundPermissionsAsync env) ;;
              ret (match status with granted => true | _ => false end)
          end ;;
        if negb hasPermission then
          setErrorMsg (Some {|
            message := "Location permission denied. Please enable it in app settings.";
            type := error |}) ;;
          ret false
        else
        location <- await (AwaitGetCurrentPosition High) (getCurrentPositionAsync env) ;;
        setLocation (Some location) ;;
        setMapRegion (Some {|
          region_latitude := latitude (coords location);
          region_longitude := longitude (coords location);
          latitudeDelta := 0.01%float;
          longitudeDelta := 0.01%float |}) ;;
        setRetryCount (NewValue 0) ;;
        ret true)
       (fun err =>
          emit (ConsoleError "Error getting location:" err) ;;
          (if retryCount render <? MAX_RETRIES then
             setRetryCount (Updater (fun prev => prev + 1)) ;;
             setTimeout (GetCurrentLocation render) 2000
           else
             setErrorMsg (Some {|
               message := ("Failed to get location: " ++ Js.message err)%string;
               type := error |}) ;;
             Alert_alert "Location Error" "Unable to get your location. Please try again.") ;;
          ret false))
    (setLoading false).

(** [sendLocationToServer] *)
Definition sendLocationToServer (render : State) (env : Env) : M unit :=
  match location render with
  | None =>
      Alert_alert "Error" "Location data is not available. Please refresh your location."
  | Some location =>
      try_catch
        (let latitude := latitude (coords location) in
         let longitude := longitude (coords location) in
         response <- await
           (AwaitAxiosPost "https://wss.clusterider.tech/send-location" latitude longitude)
           (axios_post env) ;;
         success <- lift (Js.get (data response) "success") ;;
         if truthy success then
           Alert_alert "Success" "Location shared successfully via server."
         else
           Alert_alert "Failed" "Failed to send location via server. Please try again.")
        (fun err =>
           emit (ConsoleError "Error sending location to server:" err) ;;
           Alert_alert "Error" "Failed to send location to server. Please try again.")
  end.

(** [ws.onmessage] *)
Definition ws_onmessage (render : State) (env : Env) : M unit :=
  emit (ConsoleLog "Message received from server") ;;
  (* Now that location is available, send the data to the server *)
  sendLocationToServer render env.

(** [ws.onerror] *)
Definition ws_onerror (err : Error) : M unit :=
  emit (ConsoleError "WebSocket error:" err) ;;
  Alert_alert "WebSocket Error" "An error occurred while connecting to the server.".

(** ** How the handlers get called

    Both [useEffect] calls have the dependency list [[]]: their bodies run
    once, after the first render, and the functions they name are those of
    the first render, whose bindings are the [useState] arguments. *)
Definition mount_render : State := initial.

(** What the screen reacts to.  A button press reaches the handler of the
    render on screen, whose bindings are the current hook state (React has
    re-rendered after the last setter call by the time the user can press);
    the socket callbacks are the ones the mount effect installed; a timer
    runs the function it was given.  The callers ([useEffect], [onPress],
    [setTimeout], [ws.onmessage]) all drop the handler's result. *)
Inductive Input : Type :=
| Mount (env : Env)
| SocketMessage (env : Env)
| SocketError (err : Error)
| PressRefresh (env : Env)
| PressSend (env : Env)
| TimerFires (cb : Callback) (env : Env).

Definition discard {A} (m : M A) : M unit := _ <- m ;; ret tt.

Definition dispatch (i : Input) : M unit :=
  match i with
  | Mount env => discard (getCurrentLocation mount_render env)
  | SocketMessage env => ws_onmessage mount_render env
  | SocketError err => ws_onerror err
  | PressRefresh env => fun s => discard (getCurrentLocation s env) s
  | PressSend env =>
      (* disabled={!location} *)
      fun s => match location s with
               | None => ret tt s
               | Some _ => sendLocationToServer s env s
               end
  | TimerFires (GetCurrentLocation render) env =>
      discard (getCurrentLocation render env)
  end.

(** The closures a report or acquisition can run in when the hook state is
    [s]: those of the first render and those of the render on screen. *)
Definition live_render (s render : State) : Prop :=
  render = mount_render \/ render = s.

(** ** Reading a trace *)

(** The HTTP requests issued, in order. *)
Fixpoint posts (t : Trace) : list (string * number * number) :=
  match t with
  | [] => []
  | AwaitAxiosPost url lat long :: t' => (url, lat, long) :: posts t'
  | _ :: t' => posts t'
  end.

(** The alerts raised, in order. *)
Fixpoint alerts (t : Trace) : list (string * string) :=
  match t with
  | [] => []
  | AlertAlert title msg :: t' => (title, msg) :: alerts t'
  | _ :: t' => alerts t'
  end.

(** The timers registered, in order, each with its delay in milliseconds. *)
Fixpoint timers (t : Trace) : list (Callback * Z) :=
  match t with
  | [] => []
  | SetTimeout cb ms :: t' => (cb, ms) :: timers t'
  | _ :: t' => timers t'
  end.

(** The position-fix requests made. *)
Fixpoint fixes (t : Trace) : list Accuracy :=
  match t with
  | [] => []
  | AwaitGetCurrentPosition a :: t' => a :: fixes t'
  | _ :: t' => fixes t'
  end.

(** The values [setLoading] was called with, in order. *)
Fixpoint loadings (t : Trace) : list bool :=
  match t with
  | [] => []
  | SetLoading b :: t' => b :: loadings t'
  | _ :: t' => loadings t'
  end.

(** The values [setLocation] was called with, in order. *)
Fixpoint positions (t : Trace) : list LocationState :=
  match t with
  | [] => []
  | SetLocation l :: t' => l :: positions t'
  | _ :: t' => positions t'
  end.

(** The values [setErrorMsg] was called with, in order. *)
Fixpoint errors (t : Trace) : list (option LocationError) :=
  match t with
  | [] => []
  | SetErrorMsg e :: t' => e :: errors t'
  | _ :: t' => errors t'
  end.

(** ** Runs of the acquisition flow

    One attempt is one invocation of [getCurrentLocation]; when it registers
    a timer, the next attempt is the invocation that timer makes.  [envs]
    gives the platform's answers attempt by attempt.  The result lists, for
    each attempt made, how it finished, the hook state it left and its
    trace. *)
Definition Attempt : Type := (Completion bool * State * Trace)%type.

Fixpoint acquisition_run (cb : Callback) (envs : list Env) (s : State)
  : list Attempt :=
  match envs with
  | [] => []
  | env :: rest =>
      let '(GetCurrentLocation render) := cb in
      let '(c, s', t) := getCurrentLocation render env s in
      (c, s', t) ::
      match timers t with
      | (cb', _) :: _ => acquisition_run cb' rest s'
      | [] => []
      end
  end.

(** ** The other socket callbacks *)

(** [ws.onopen] *)
Definition ws_onopen : M unit :=
  emit (ConsoleLog "Connected to WebSocket server").

(** [ws.onclose] *)
Definition ws_onclose : M unit :=
  emit (ConsoleLog "Disconnected from WebSocket server").

(** What the socket can report to the screen. *)
Inductive SocketEvent : Type :=
| Open
| Message (env : Env)
| Failure (err : Error)
| Close.

(** The callbacks the mount effect assigns to [ws]; they are defined in the
    effect's body, so they belong to [render], the render the effect ran
    in. *)
Definition socket_callback (render : State) (ev : SocketEvent) : M unit :=
  match ev with
  | Open => ws_onopen
  | Message env => ws_onmessage render env
  | Failure err => ws_onerror err
  | Close => ws_onclose
  end.

(** ** What the screen shows

    The element tree [LocationApp] returns, without the style constants.
    [toString] stands for [Number.prototype.toString]. *)

(** The function a button calls when pressed: a handler of the render that
    produced the button. *)
Inductive Handler : Type :=
| OnGetCurrentLocation (render : State)
| OnSendLocationToServer (render : State).

Record TouchableOpacity : Type := {
  icon : string;
  iconColor : string;
  disabled : bool;
  onPress : Handler
}.

Record Marker : Type := {
  coordinate_latitude : number;
  coordinate_longitude : number;
  title : string
}.

Inductive MapArea : Type :=
| MapView (region : Region) (showsUserLocation : bool) (marker : Marker)
| MapPlaceholder (icon text : string).

Inductive Content : Type :=
| LoadingContainer (text : string)
| Coordinates (latitudeValue longitudeValue : string) (map : MapArea).

Record Screen : Type := {
  headerTitle : string;
  content : Content;
  refreshButton : TouchableOpacity;
  sendButton : TouchableOpacity
}.

(** [v || ''] for [v] a string or [undefined]. *)
Definition or_empty (v : option string) : string :=
  match v with
  | Some x => if truthy (String x) then x else ""
  | None => ""
  end.

(** The [return (...)] of [LocationApp], for the render whose bindings are
    [s]. *)
Definition LocationApp (toString : number -> string) (s : State) : Screen := {|
  headerTitle := "Location Sharing";
  content :=
    if loading s then
      LoadingContainer "Fetching location..."
    else
      Coordinates
        (or_empty (option_map (fun l => toString (latitude (coords l))) (location s)))
        (or_empty (option_map (fun l => toString (longitude (coords l))) (location s)))
        (match mapRegion s with
         | Some mapRegion =>
             MapView mapRegion true
               {| coordinate_latitude := region_latitude mapRegion;
                  coordinate_longitude := region_longitude mapRegion;
                  title := "Your Location" |}
         | None => MapPlaceholder "map-pin" "Map loading..."
         end);
  refreshButton := {|
    icon := "refresh-cw";
    iconColor := "white";
    disabled := false;
    onPress := OnGetCurrentLocation s |};
  sendButton := {|
    icon := "send";
    iconColor := match location s with Some _ => "white" | None => "#9CA3AF" end;
    disabled := match location s with Some _ => false | None => true end;
    onPress := OnSendLocationToServer s |}
|}.

(** A press on a button: nothing when the button is disabled, else the call
    of its handler. *)
Definition press (b : TouchableOpacity) (env : Env) : M unit :=
  if disabled b then ret tt
  else match onPress b with
       | OnGetCurrentLocation render => discard (getCurrentLocation render env)
       | OnSendLocationToServer render => sendLocationToServer render env
       end.

(** ** Sequences of inputs *)

(** The screen reacting to [inputs] one after the other: the hook state at
    the end and everything that was done on the way. *)
Fixpoint run (inputs : list Input) (s : State) : State * Trace :=
  match inputs with
  | [] => (s, [])
  | i :: rest =>
      let '(_, s1, t1) := dispatch i s in
      let '(s2, t2) := run rest s1 in
      (s2, t1 ++ t2)
  end.

(** The inputs that start an invocation of [getCurrentLocation]. *)
Definition is_acquisition (i : Input) : bool :=
  match i with
  | Mount _ | PressRefresh _ | TimerFires _ _ => true
  | _ => false
  end.

(** The two ways permission is asked for. *)
Inductive Channel : Type := AndroidDialog | ForegroundRequest.

(** The permission requests made, in order. *)
Fixpoint permission_requests (t : Trace) : list Channel :=
  match t with
  | [] => []
  | AwaitPermissionsAndroidRequest _ _ _ _ _ :: t' =>
      AndroidDialog :: permission_requests t'
  | AwaitRequestForegroundPermissions :: t' =>
      ForegroundRequest :: permission_requests t'
  | _ :: t' => permission_requests t'
  end.

(** The services checks made. *)
Fixpoint services_checks (t : Trace) : nat :=
  match t with
  | [] => O
  | AwaitHasServicesEnabled :: t' => S (services_checks t')
  | _ :: t' => services_checks t'
  end.

(** The setter calls of a trace. *)
Fixpoint setter_calls (t : Trace) : Trace :=
  match t with
  | [] => []
  | (SetLocation _ | SetErrorMsg _ | SetMapRegion _ | SetLoading _
     | SetRetryCount _) as ev :: t' => ev :: setter_calls t'
  | _ :: t' => setter_calls t'
  end.

(** ** Vocabulary of the statements *)

(** The services check returned [true]. *)
Definition services_enabled (env : Env) : Prop :=
  hasServicesEnabledAsync env = Returned true.

(** The permission request returned the granting outcome. *)
Definition permission_granted (env : Env) : Prop :=
  match Platform_OS env with
  | android => PermissionsAndroid_request env = Returned GRANTED
  | _ => requestForegroundPermissionsAsync env = Returned granted
  end.

(** The permission request returned an outcome other than the granting one
    (on Android, where [requestAndroidPermission] catches, it may also have
    thrown). *)
Definition permission_refused (env : Env) : Prop :=
  match Platform_OS env with
  | android => PermissionsAndroid_request env <> Returned GRANTED
  | _ => exists st, requestForegroundPermissionsAsync env = Returned st /\ st <> granted
  end.

(** The attempt gets as far as the position fix, which throws [e]. *)
Definition fix_fails (e : Error) (env : Env) : Prop :=
  services_enabled env /\ permission_granted env /\
  getCurrentPositionAsync env = Thrown e.

(** The attempt gets as far as the position fix, which returns [loc]. *)
Definition fix_succeeds (loc : LocationObject) (env : Env) : Prop :=
  services_enabled env /\ permission_granted env /\
  getCurrentPositionAsync env = Returned loc.

(** The ways an attempt can go wrong, by what the platform answered. *)
Inductive attempt_fails (env : Env) : Prop :=
| services_disabled :
    hasServicesEnabledAsync env = Returned false -> attempt_fails env
| services_check_throws (e : Error) :
    hasServicesEnabledAsync env = Thrown e -> attempt_fails env
| permission_denied :
    services_enabled env -> permission_refused env -> attempt_fails env
| permission_request_throws (e : Error) :
    services_enabled env -> Platform_OS env <> android ->
    requestForegroundPermissionsAsync env = Thrown e -> attempt_fails env
| position_fix_throws (e : Error) :
    fix_fails e env -> attempt_fails env.

(** The permission request an invocation makes, as it shows in the trace. *)
Definition permission_request (env : Env) : Event :=
  match Platform_OS env with
  | android =>
      AwaitPermissionsAndroidRequest
        "Location Permission"
        "This app needs access to your location to function properly."
        "Ask Me Later" "Cancel" "OK"
  | _ => AwaitRequestForegroundPermissions
  end.

(** The record [setErrorMsg] receives when permission is not granted. *)
Definition permission_denied_error : LocationError := {|
  message := "Location permission denied. Please enable it in app settings.";
  type := error |}.

(** The record [setErrorMsg] receives once the retries are used up. *)
Definition terminal_error (cause : Error) : LocationError := {|
  message := ("Failed to get location: " ++ Js.message cause)%string;
  type := error |}.

(** The hook state after one failed fix that scheduled a retry. *)
Definition failed_once (s : State) : State := {|
  location := location s;
  errorMsg := None;
  mapRegion := mapRegion s;
  loading := false;
  retryCount := retryCount s + 1
|}.

(** What "the retries are used up" looks like for one attempt: no timer, the
    error descriptor built from the cause, and the alert. *)
Definition surfaces_terminal_error (a : Attempt) : Prop :=
  let '(c, s', t) := a in
  timers t = [] /\
  (exists cause, errorMsg s' = Some (terminal_error cause)) /\
  alerts t = [("Location Error", "Unable to get your location. Please try again.")].

(** The map region [getCurrentLocation] derives from a fix. *)
Definition region_of (loc : LocationObject) : Region := {|
  region_latitude := latitude (coords loc);
  region_longitude := longitude (coords loc);
  latitudeDelta := 0.01%float;
  longitudeDelta := 0.01%float |}.

(** The hook state a successful acquisition leaves. *)
Definition located (loc : LocationObject) : State := {|
  location := Some loc;
  errorMsg := None;
  mapRegion := Some (region_of loc);
  loading := false;
  retryCount := 0 |}.

(** The stored position and the map region go together, and the retry
    counter is not negative. *)
Definition coherent (s : State) : Prop :=
  0 <= retryCount s /\
  match location s with
  | Some loc => mapRegion s = Some (region_of loc)
  | None => mapRegion s = None
  end.

(** The outer [try] of [getCurrentLocation] is left by an exception [e]: the
    position fix threw, or, off Android, the permission request did. *)
Definition outer_try_throws (e : Error) (env : Env) : Prop :=
  services_enabled env /\
  (fix_fails e env \/
   (Platform_OS env <> android /\ requestForegroundPermissionsAsync env = Thrown e)).

(** ** Sample data for the concrete runs *)

(** A fix as the device reports it. *)
Definition sample_fix : LocationObject := {|
  coords := {| latitude := 28.6139%float; longitude := 77.209%float;
               altitude := Some 216%float; accuracy := Some 5%float;
               heading := None; speed := None |};
  timestamp := 1700000000000%float |}.

Definition timed_out : Error := mkError "Location request timed out".

Definition env_fix_ok : Env := {|
  Platform_OS := android;
  hasServicesEnabledAsync := Returned true;
  PermissionsAndroid_request := Returned GRANTED;
  requestForegroundPermissionsAsync := Returned granted;
  getCurrentPositionAsync := Returned sample_fix;
  axios_post := Returned {| status := 200; data := Object [("success", Bool true)] |}
|}.

Definition env_fix_throws : Env := {|
  Platform_OS := android;
  hasServicesEnabledAsync := Returned true;
  PermissionsAndroid_request := Returned GRANTED;
  requestForegroundPermissionsAsync := Returned granted;
  getCurrentPositionAsync := Thrown timed_out;
  axios_post := Returned {| status := 200; data := Object [("success", Bool true)] |}
|}.

Definition env_services_disabled : Env := {|
  Platform_OS := android;
  hasServicesEnabledAsync := Returned false;
  PermissionsAndroid_request := Returned GRANTED;
  requestForegroundPermissionsAsync := Returned granted;
  getCurrentPositionAsync := Returned sample_fix;
  axios_post := Thrown (mkError "Network Error")
|}.

Definition env_services_check_throws : Env := {|
  Platform_OS := ios;
  hasServicesEnabledAsync := Thrown (mkError "Location provider is unavailable");
  PermissionsAndroid_request := Returned GRANTED;
  requestForegroundPermissionsAsync := Returned granted;
  getCurrentPositionAsync := Returned sample_fix;
  axios_post := Thrown (mkError "Network Error")
|}.

Definition env_permission_cancelled : Env := {|
  Platform_OS := android;
  hasServicesEnabledAsync := Returned true;
  PermissionsAndroid_request := Returned DENIED;
  requestForegroundPermissionsAsync := Returned denied;
  getCurrentPositionAsync := Returned sample_fix;
  axios_post := Thrown (mkError "Network Error")
|}.

Definition env_permission_undetermined : Env := {|
  Platform_OS := ios;
  hasServicesEnabledAsync := Returned true;
  PermissionsAndroid_request := Returned GRANTED;
  requestForegroundPermissionsAsync := Returned undetermined;
  getCurrentPositionAsync := Returned sample_fix;
  axios_post := Thrown (mkError "Network Error")
|}.

(** A platform on which the HTTP request finishes as [answer]. *)
Definition env_post (answer : Completion AxiosResponse) : Env := {|
  Platform_OS := android;
  hasServicesEnabledAsync := Returned true;
  PermissionsAndroid_request := Returned GRANTED;
  requestForegroundPermissionsAsync := Returned granted;
  getCurrentPositionAsync := Returned sample_fix;
  axios_post := answer
|}.

(** The hook state left by a successful acquisition at mount. *)
Definition acquired : State :=
  snd (fst (dispatch (Mount env_fix_ok) initial)).

(** The hook state once three retries have been counted. *)
Definition three_retries_counted : State := Nat.iter 3 failed_once initial.

(** A session: a failed fix at mount, a socket message, the retry, a send,
    and a refresh with the services switched off. *)
Definition sample_inputs : list Input :=
  [Mount env_fix_throws;
   SocketMessage env_fix_ok;
   TimerFires (GetCurrentLocation mount_render) env_fix_ok;
   PressSend env_fix_ok;
   PressRefresh env_services_disabled].

Definition env_foreground_throws : Env := {|
  Platform_OS := ios;
  hasServicesEnabledAsync := Returned true;
  PermissionsAndroid_request := Returned GRANTED;
  requestForegroundPermissionsAsync := Thrown (mkError "Permission module unavailable");
  getCurrentPositionAsync := Returned sample_fix;
  axios_post := Thrown (mkError "Network Error")
|}.

(** The same on Android. *)
Definition env_android_request_throws : Env := {|
  Platform_OS := android;
  hasServicesEnabledAsync := Returned true;
  PermissionsAndroid_request := Thrown (mkError "Permission module unavailable");
  requestForegroundPermissionsAsync := Returned granted;
  getCurrentPositionAsync := Returned sample_fix;
  axios_post := Thrown (mkError "Network Error")
|}.

Definition env_success_as_text : Env :=
  env_post (Returned {| status := 200;
                        data := Object [("success", String "false")] |}).

Definition acquired_then_refused : State := {|
  location := location acquired;
  errorMsg := Some permission_denied_error;
  mapRegion := mapRegion acquired;
  loading := loading acquired;
  retryCount := 7 |}.

(** ** Proof tools *)

(** Settles an invocation whose course is fixed by the facts at hand. *)
Ltac by_cases_on env :=
  destruct env as [os svc areq freq fx post]; cbn in *; subst;
  try reflexivity.

(** All the answers the platform can give to one invocation. *)
Ltac all_answers env render :=
  destruct env as [os svc areq freq fx post]; unfold getCurrentLocation;
  destruct svc as [[|]|?]; destruct os;
  destruct areq as [[| |]|?]; destruct freq as [[| |]|?]; destruct fx as [?|?];
  cbn; unfold try_finally, try_catch, bind; cbn;
  try (destruct (retryCount render <? MAX_RETRIES); cbn).

(** Follows an invocation through the answers it actually asks for. *)
Ltac follow_answers env render :=
  destruct env as [os svc areq freq fx post];
  unfold getCurrentLocation, checkLocationServices, requestAndroidPermission,
    try_finally, try_catch, bind, await; cbn;
  repeat (match goal with
          | |- context [negb ?x] => is_var x; destruct x
          | |- context [match ?x with _ => _ end] => is_var x; destruct x
          | |- context [retryCount render <? MAX_RETRIES] =>
              destruct (retryCount render <? MAX_RETRIES) eqn:?
          end; cbn).

(** Closes what is left to show when a retry was scheduled. *)
Ltac retry_leaf :=
  match goal with
  | |- _ < _ => apply Z.ltb_lt; assumption
  | |- exists e, _ =>
      eexists; split; [reflexivity|];
      first [ left; repeat split; reflexivity
            | right; split; [discriminate | reflexivity] ]
  | |- _ => reflexivity
  end.

(** Settles one concrete course of an invocation against facts about the
    answers. *)
Ltac answer_leaf :=
  repeat split; intros;
  repeat match goal with
         | H : _ /\ _ |- _ => destruct H
         end;
  try reflexivity; try discriminate; try congruence;
  try (exfalso; match goal with H : ~ _ |- _ => apply H; reflexivity end).

(** * Properties *)

(** ** Single invocations of [getCurrentLocation], case by case *)

Lemma services_disabled_outcome (render : State) (env : Env) (s : State) :
  hasServicesEnabledAsync env = Returned false ->
  getCurrentLocation render env s =
    (Returned false,
     {| location := location s;
        errorMsg := Some {|
          message := "Location services are disabled. Please enable them in your device settings.";
          type := warning |};
        mapRegion := mapRegion s;
        loading := false;
        retryCount := retryCount s |},
     [SetLoading true; SetErrorMsg None; AwaitHasServicesEnabled;
      SetErrorMsg (Some {|
        message := "Location services are disabled. Please enable them in your device settings.";
        type := warning |});
      SetLoading false]).
Proof. intros H. by_cases_on env. Qed.

Lemma services_check_throws_outcome (render : State) (env : Env) (s : State) (e : Error) :
  hasServicesEnabledAsync env = Thrown e ->
  getCurrentLocation render env s =
    (Returned false,
     {| location := location s; errorMsg := None; mapRegion := mapRegion s;
        loading := false; retryCount := retryCount s |},
     [SetLoading true; SetErrorMsg None; AwaitHasServicesEnabled;
      ConsoleError "Error checking location services:" e;
      SetLoading false]).
Proof. intros H. by_cases_on env. Qed.

Lemma permission_refused_outcome (render : State) (env : Env) (s : State) :
  services_enabled env -> permission_refused env ->
  exists warned : Trace,
    (warned = [] \/
     exists e, Platform_OS env = android /\
               warned = [ConsoleWarn "Error requesting Android permission:" e]) /\
    getCurrentLocation render env s =
      (Returned false,
       {| location := location s; errorMsg := Some permission_denied_error;
          mapRegion := mapRegion s; loading := false; retryCount := retryCount s |},
       [SetLoading true; SetErrorMsg None; AwaitHasServicesEnabled;
        permission_request env] ++ warned ++
       [SetErrorMsg (Some permission_denied_error); SetLoading false]).
Proof.
  unfold services_enabled, permission_refused, permission_request.
  intros Hs Hp.
  destruct env as [os svc areq freq fx post]; cbn in *; subst.
  destruct os; cbn in *;
    try (destruct Hp as [st [-> Hst]]; exists []; split; [now left|];
         destruct st; [contradiction | reflexivity | reflexivity]).
  destruct areq as [[ | | ] | e].
  - contradiction.
  - exists []. split; [now left | reflexivity].
  - exists []. split; [now left | reflexivity].
  - exists [ConsoleWarn "Error requesting Android permission:" e].
    split; [right; exists e; split; reflexivity | reflexivity].
Qed.

Lemma fix_succeeds_outcome (render : State) (env : Env) (s : State) (loc : LocationObject) :
  fix_succeeds loc env ->
  getCurrentLocation render env s =
    (Returned true,
     {| location := Some loc; errorMsg := None;
        mapRegion := Some {| region_latitude := latitude (coords loc);
                             region_longitude := longitude (coords loc);
                             latitudeDelta := 0.01%float;
                             longitudeDelta := 0.01%float |};
        loading := false; retryCount := 0 |},
     [SetLoading true; SetErrorMsg None; AwaitHasServicesEnabled;
      permission_request env; AwaitGetCurrentPosition High;
      SetLocation (Some loc);
      SetMapRegion (Some {| region_latitude := latitude (coords loc);
                            region_longitude := longitude (coords loc);
                            latitudeDelta := 0.01%float;
                            longitudeDelta := 0.01%float |});
      SetRetryCount (NewValue 0); SetLoading false]).
Proof.
  unfold fix_succeeds, services_enabled, permission_granted, permission_request.
  intros (Hs & Hp & Hf).
  destruct env as [os svc areq freq fx post]; cbn in *; subst.
  destruct os; cbn in *; subst; reflexivity.
Qed.

Lemma fix_fails_retry_outcome (render : State) (env : Env) (s : State) (e : Error) :
  fix_fails e env -> retryCount render < MAX_RETRIES ->
  getCurrentLocation render env s =
    (Returned false,
     {| location := location s; errorMsg := None; mapRegion := mapRegion s;
        loading := false; retryCount := retryCount s + 1 |},
     [SetLoading true; SetErrorMsg None; AwaitHasServicesEnabled;
      permission_request env; AwaitGetCurrentPosition High;
      ConsoleError "Error getting location:" e;
      SetRetryCount (Updater (fun prev => prev + 1));
      SetTimeout (GetCurrentLocation render) 2000;
      SetLoading false]).
Proof.
  unfold fix_fails, services_enabled, permission_granted, permission_request.
  intros (Hs & Hp & Hf) Hlt. apply Z.ltb_lt in Hlt.
  destruct env as [os svc areq freq fx post]; cbn in *; subst.
  unfold getCurrentLocation.
  destruct os; cbn in *; subst; cbn; unfold try_finally, try_catch, bind; cbn;
    rewrite Hlt; reflexivity.
Qed.

Lemma fix_fails_terminal_outcome (render : State) (env : Env) (s : State) (e : Error) :
  fix_fails e env -> MAX_RETRIES <= retryCount render ->
  getCurrentLocation render env s =
    (Returned false,
     {| location := location s; errorMsg := Some (terminal_error e);
        mapRegion := mapRegion s; loading := false; retryCount := retryCount s |},
     [SetLoading true; SetErrorMsg None; AwaitHasServicesEnabled;
      permission_request env; AwaitGetCurrentPosition High;
      ConsoleError "Error getting location:" e;
      SetErrorMsg (Some (terminal_error e));
      AlertAlert "Location Error" "Unable to get your location. Please try again.";
      SetLoading false]).
Proof.
  unfold fix_fails, services_enabled, permission_granted, permission_request.
  intros (Hs & Hp & Hf) Hge. apply Z.ltb_ge in Hge.
  destruct env as [os svc areq freq fx post]; cbn in *; subst.
  unfold getCurrentLocation.
  destruct os; cbn in *; subst; cbn; unfold try_finally, try_catch, bind; cbn;
    rewrite Hge; reflexivity.
Qed.

(** On platforms other than Android the permission request is awaited
    directly inside the outer [try], so when it throws the outer handler
    runs, as it does for a failed fix. *)
Lemma foreground_request_throws_outcome (render : State) (env : Env) (s : State) (e : Error) :
  services_enabled env -> Platform_OS env <> android ->
  requestForegroundPermissionsAsync env = Thrown e ->
  exists s' t,
    getCurrentLocation render env s = (Returned false, s', t) /\
    location s' = location s /\ mapRegion s' = mapRegion s /\
    loading s' = false /\ positions t = [] /\ fixes t = [].
Proof.
  unfold services_enabled. intros Hs Hos Hf.
  destruct env as [os svc areq freq fx post]; cbn in *; subst.
  unfold getCurrentLocation.
  destruct os; try contradiction; cbn; unfold try_finally, try_catch, bind; cbn;
    destruct (retryCount render <? MAX_RETRIES); cbn;
    eexists; eexists; repeat split.
Qed.

(** Every answer of the platform is one of these failures or a successful
    fix. *)
Lemma attempt_fails_or_succeeds (env : Env) :
  attempt_fails env \/ exists loc, fix_succeeds loc env.
Proof.
  destruct (hasServicesEnabledAsync env) as [[|]|e] eqn:Hs.
  2: { left. now apply services_disabled. }
  2: { left. now apply services_check_throws with e. }
  assert (Hperm : permission_granted env \/ permission_refused env \/
                  (Platform_OS env <> android /\
                   exists e, requestForegroundPermissionsAsync env = Thrown e)).
  { unfold permission_granted, permission_refused.
    destruct (Platform_OS env) eqn:Hos.
    2: { destruct (PermissionsAndroid_request env) as [[| |]|e];
         (now left) || (right; left; congruence). }
    all: destruct (requestForegroundPermissionsAsync env) as [[| |]|e];
      try (now left);
      try (right; left; eexists; split; [reflexivity | congruence]);
      right; right; (split; [congruence | now exists e]). }
  destruct Hperm as [Hp | [Hp | [Hos [e He]]]].
  - destruct (getCurrentPositionAsync env) as [loc|e] eqn:Hf.
    + right. exists loc. now repeat split.
    + left. apply position_fix_throws with e. now repeat split.
  - left. now apply permission_denied.
  - left. now apply permission_request_throws with e.
Qed.

(** ** What a failing acquisition does *)

(** C3.  Whatever makes an acquisition attempt fail (services disabled or
    their check throwing, permission not granted, the permission request or
    the position fix throwing), the attempt returns [false], never calls
    [setLocation], and leaves the stored position and the map region as they
    were. *)
Theorem failed_attempt_keeps_position (render : State) (env : Env) (s : State) :
  attempt_fails env ->
  let '(c, s', t) := getCurrentLocation render env s in
  c = Returned false /\
  location s' = location s /\
  mapRegion s' = mapRegion s /\
  positions t = [].
Proof.
  intros [H | e H | Hs Hp | e Hs Hos Hf | e H].
  - rewrite services_disabled_outcome by assumption. cbn. auto.
  - rewrite services_check_throws_outcome with (e := e) by assumption. cbn. auto.
  - destruct (permission_refused_outcome render env s Hs Hp) as (w & Hw & ->).
    cbn. repeat split.
    destruct Hw as [-> | (e & _ & ->)]; unfold permission_request;
      destruct (Platform_OS env); reflexivity.
  - destruct (foreground_request_throws_outcome render env s e Hs Hos Hf)
      as (s' & t & -> & ? & ? & ? & ? & ?). auto.
  - destruct (Z.lt_ge_cases (retryCount render) MAX_RETRIES) as [Hlt | Hge].
    + rewrite fix_fails_retry_outcome with (e := e) by assumption.
      cbn. repeat split. unfold permission_request.
      destruct (Platform_OS env); reflexivity.
    + rewrite fix_fails_terminal_outcome with (e := e) by assumption.
      cbn. repeat split. unfold permission_request.
      destruct (Platform_OS env); reflexivity.
Qed.

Lemma failed_attempt_keeps_position_witness :
  attempt_fails env_fix_throws /\
  let '(c, s', t) := getCurrentLocation acquired env_fix_throws acquired in
  c = Returned false /\
  location s' = location acquired /\
  mapRegion s' = mapRegion acquired /\
  positions t = [].
Proof.
  assert (H : attempt_fails env_fix_throws).
  { apply position_fix_throws with timed_out. repeat split. }
  split; [exact H | exact (failed_attempt_keeps_position acquired env_fix_throws acquired H)].
Defined.

(** [setLocation] is called only when the fix has returned, and with the
    position the fix returned. *)
Lemma position_written_only_after_fix (render : State) (env : Env) (s : State) (l : LocationState) :
  In l (positions (snd (getCurrentLocation render env s))) ->
  exists loc, fix_succeeds loc env /\ l = Some loc.
Proof.
  unfold fix_succeeds, services_enabled, permission_granted.
  all_answers env render; intros H; try contradiction;
    destruct H as [<- | []]; eexists; repeat split.
Qed.

(** C7.  When location services are disabled the invocation returns [false]
    with the warning that names the condition, registers no timer, makes no
    position-fix request, raises no alert, leaves the retry counter alone and
    ends with [loading] false. *)
Theorem services_disabled_fails_at_once (render : State) (env : Env) (s : State) :
  hasServicesEnabledAsync env = Returned false ->
  let '(c, s', t) := getCurrentLocation render env s in
  c = Returned false /\
  errorMsg s' = Some {|
    message := "Location services are disabled. Please enable them in your device settings.";
    type := warning |} /\
  loading s' = false /\
  timers t = [] /\
  fixes t = [] /\
  retryCount s' = retryCount s.
Proof.
  intros H. rewrite services_disabled_outcome by assumption.
  cbn. repeat split.
Qed.

Lemma services_disabled_fails_at_once_witness :
  hasServicesEnabledAsync env_services_disabled = Returned false /\
  let '(c, s', t) := getCurrentLocation mount_render env_services_disabled initial in
  c = Returned false /\
  errorMsg s' = Some {|
    message := "Location services are disabled. Please enable them in your device settings.";
    type := warning |} /\
  loading s' = false /\
  timers t = [] /\
  fixes t = [] /\
  retryCount s' = retryCount initial.
Proof.
  assert (H : hasServicesEnabledAsync env_services_disabled = Returned false)
    by reflexivity.
  split; [exact H |].
  exact (services_disabled_fails_at_once mount_render env_services_disabled initial H).
Defined.

(** When the permission request returns an outcome other than the granting
    one (or, on Android, throws), the invocation returns [false] with the
    permission-denied error, registers no timer, makes no position-fix
    request and leaves the retry counter alone. *)
Theorem permission_refused_fails_at_once (render : State) (env : Env) (s : State) :
  services_enabled env ->
  permission_refused env ->
  let '(c, s', t) := getCurrentLocation render env s in
  c = Returned false /\
  errorMsg s' = Some {|
    message := "Location permission denied. Please enable it in app settings.";
    type := error |} /\
  timers t = [] /\
  fixes t = [] /\
  retryCount s' = retryCount s /\
  loading s' = false.
Proof.
  intros Hs Hp.
  destruct (permission_refused_outcome render env s Hs Hp) as (w & Hw & ->).
  cbn. repeat split;
    destruct Hw as [-> | (e & _ & ->)]; unfold permission_request;
    destruct (Platform_OS env); reflexivity.
Qed.

Lemma permission_refused_fails_at_once_witness :
  (services_enabled env_permission_cancelled /\
   permission_refused env_permission_cancelled) /\
  let '(c, s', t) := getCurrentLocation mount_render env_permission_cancelled initial in
  c = Returned false /\
  errorMsg s' = Some {|
    message := "Location permission denied. Please enable it in app settings.";
    type := error |} /\
  timers t = [] /\
  fixes t = [] /\
  retryCount s' = retryCount initial /\
  loading s' = false.
Proof.
  assert (Hs : services_enabled env_permission_cancelled) by reflexivity.
  assert (Hp : permission_refused env_permission_cancelled)
    by (cbn; discriminate).
  split; [split; assumption |].
  exact (permission_refused_fails_at_once mount_render env_permission_cancelled initial Hs Hp).
Defined.

(** The same on iOS with the request left undetermined. *)
Example permission_undetermined_on_ios :
  getCurrentLocation mount_render env_permission_undetermined initial =
    (Returned false,
     {| location := None; errorMsg := Some permission_denied_error;
        mapRegion := None; loading := false; retryCount := 0 |},
     [SetLoading true; SetErrorMsg None; AwaitHasServicesEnabled;
      AwaitRequestForegroundPermissions;
      SetErrorMsg (Some permission_denied_error); SetLoading false]).
Proof. reflexivity. Qed.

(** C8 does not hold of the code.  On iOS, with the services enabled, a
    permission request that throws (so does not return the granting
    outcome) is not reported as a denial: the invocation records no error,
    increments the counter and registers a retry timer.  On Android the
    same throw is caught by [requestAndroidPermission] and gives the
    permission-denied error with no retry. *)
Theorem foreground_throw_is_not_a_denial :
  getCurrentLocation mount_render env_foreground_throws initial =
    (Returned false,
     {| location := None; errorMsg := None; mapRegion := None;
        loading := false; retryCount := 1 |},
     [SetLoading true; SetErrorMsg None; AwaitHasServicesEnabled;
      AwaitRequestForegroundPermissions;
      ConsoleError "Error getting location:" (mkError "Permission module unavailable");
      SetRetryCount (Updater (fun prev => prev + 1));
      SetTimeout (GetCurrentLocation mount_render) 2000;
      SetLoading false]) /\
  (let '(c, s', t) := getCurrentLocation mount_render env_android_request_throws initial in
   c = Returned false /\
   errorMsg s' = Some permission_denied_error /\
   timers t = [] /\
   retryCount s' = 0).
Proof. split; [reflexivity | repeat split]. Qed.

(** C9.  When the services check itself throws, the invocation returns
    [false]; the only [setErrorMsg] call is the reset to [null] at entry, so
    the error descriptor ends [null]; no alert is raised and no timer
    registered; apart from that reset only [loading] changes, to false. *)
Theorem services_check_throws_fails_silently
    (render : State) (env : Env) (s : State) (e : Error) :
  hasServicesEnabledAsync env = Thrown e ->
  let '(c, s', t) := getCurrentLocation render env s in
  c = Returned false /\
  errorMsg s' = None /\
  errors t = [None] /\
  alerts t = [] /\
  timers t = [] /\
  fixes t = [] /\
  loading s' = false /\
  location s' = location s /\
  mapRegion s' = mapRegion s /\
  retryCount s' = retryCount s.
Proof.
  intros H. rewrite services_check_throws_outcome with (e := e) by assumption.
  cbn. repeat split.
Qed.

Lemma services_check_throws_fails_silently_witness :
  hasServicesEnabledAsync env_services_check_throws =
    Thrown (mkError "Location provider is unavailable") /\
  let '(c, s', t) := getCurrentLocation mount_render env_services_check_throws initial in
  c = Returned false /\
  errorMsg s' = None /\
  errors t = [None] /\
  alerts t = [] /\
  timers t = [] /\
  fixes t = [] /\
  loading s' = false /\
  location s' = location initial /\
  mapRegion s' = mapRegion initial /\
  retryCount s' = retryCount initial.
Proof.
  assert (H : hasServicesEnabledAsync env_services_check_throws =
              Thrown (mkError "Location provider is unavailable")) by reflexivity.
  split; [exact H |].
  exact (services_check_throws_fails_silently mount_render env_services_check_throws
           initial (mkError "Location provider is unavailable") H).
Defined.

(** ** Retries *)

(** Every invocation of [getCurrentLocation] calls [setLoading] exactly
    twice: with [true] as its very first action and with [false] as its very
    last; it always returns, and leaves [loading] false. *)
Lemma getCurrentLocation_brackets_loading (render : State) (env : Env) (s : State) :
  let '(c, s', t) := getCurrentLocation render env s in
  (exists b, c = Returned b) /\
  loading s' = false /\
  loadings t = [true; false] /\
  hd_error t = Some (SetLoading true) /\
  last t (SetLoading true) = SetLoading false.
Proof.
  all_answers env render; repeat split; eexists; reflexivity.
Qed.

(** The hook state is exactly what the setter calls of the trace make of
    it. *)
Lemma getCurrentLocation_state_from_trace (render : State) (env : Env) (s : State) :
  let '(c, s', t) := getCurrentLocation render env s in
  s' = fold_left apply_event t s.
Proof.
  all_answers env render; reflexivity.
Qed.

(** Handlers other than [getCurrentLocation] never call [setLoading], so
    whatever the screen reacts to, [loading] is raised only as the first
    action of an invocation of [getCurrentLocation]. *)
Lemma sendLocationToServer_trace (render : State) (env : Env) (s : State) :
  let '(c, s', t) := sendLocationToServer render env s in
  c = Returned tt /\ s' = s /\ loadings t = [] /\ timers t = [] /\
  exists title msg, alerts t = [(title, msg)].
Proof.
  unfold sendLocationToServer.
  destruct (location render) as [loc|]; cbn.
  2: { repeat split. now eexists; eexists. }
  unfold try_catch, bind, await, lift; cbn.
  destruct (axios_post env) as [resp|e]; cbn.
  2: { repeat split. now eexists; eexists. }
  destruct (Js.get (data resp) "success") as [v|e]; cbn.
  2: { repeat split. now eexists; eexists. }
  destruct (truthy v); cbn; repeat split; now eexists; eexists.
Qed.

Lemma loading_raised_only_at_entry (i : Input) (s : State) :
  let t := snd (dispatch i s) in
  loadings t = [] \/
  (hd_error t = Some (SetLoading true) /\ loadings t = [true; false]).
Proof.
  assert (Hacq : forall render env s0,
             let t := snd (discard (getCurrentLocation render env) s0) in
             hd_error t = Some (SetLoading true) /\ loadings t = [true; false]).
  { intros render env s0. unfold discard, bind.
    pose proof (getCurrentLocation_brackets_loading render env s0) as H.
    destruct (getCurrentLocation render env s0) as [[c s'] t].
    destruct H as ([b ->] & _ & Hl & Hh & _). cbn. rewrite app_nil_r. auto. }
  destruct i as [env | env | err | env | env | [render] env]; cbn.
  - right. apply Hacq.
  - now left.
  - now left.
  - right. apply Hacq.
  - left. destruct (location s) eqn:Hloc; [|reflexivity].
    pose proof (sendLocationToServer_trace s env s) as H.
    destruct (sendLocationToServer s env s) as [[c s'] t].
    destruct H as (_ & _ & H & _). exact H.
  - right. apply Hacq.
Qed.

(** C10.  An invocation whose fix fails and which schedules a retry returns
    [false] and leaves [loading] false: the finalizer's [setLoading(false)]
    is the action right after the [setTimeout] call, with no suspension in
    between, so it runs before the timer can fire.  The timer's invocation
    raises [loading] again as its first action, and nothing the screen
    reacts to raises it otherwise. *)
Theorem retry_pending_reads_not_loading
    (render : State) (env : Env) (s : State) (e : Error) :
  fix_fails e env ->
  retryCount render < MAX_RETRIES ->
  let '(c, s', t) := getCurrentLocation render env s in
  c = Returned false /\
  loading s' = false /\
  errorMsg s' = None /\
  timers t = [(GetCurrentLocation render, 2000)] /\
  (exists before,
      t = before ++ [SetTimeout (GetCurrentLocation render) 2000; SetLoading false] /\
      loadings before = [true]) /\
  (forall env',
      let '(_, s'', t') := dispatch (TimerFires (GetCurrentLocation render) env') s' in
      hd_error t' = Some (SetLoading true) /\ loading s'' = false) /\
  (forall (i : Input) (s0 : State),
      let t0 := snd (dispatch i s0) in
      loadings t0 = [] \/
      (hd_error t0 = Some (SetLoading true) /\ loadings t0 = [true; false])).
Proof.
  intros Hf Hlt.
  rewrite fix_fails_retry_outcome with (e := e) by assumption.
  cbn. repeat split.
  - unfold permission_request. destruct (Platform_OS env); reflexivity.
  - exists [SetLoading true; SetErrorMsg None; AwaitHasServicesEnabled;
            permission_request env; AwaitGetCurrentPosition High;
            ConsoleError "Error getting location:" e;
            SetRetryCount (Updater (fun prev => prev + 1))].
    split; [reflexivity|].
    unfold permission_request. destruct (Platform_OS env); reflexivity.
  - intros env'. unfold discard, bind.
    match goal with |- context [getCurrentLocation render env' ?st] =>
      pose proof (getCurrentLocation_brackets_loading render env' st) as H;
      destruct (getCurrentLocation render env' st) as [[c s''] t']
    end.
    destruct H as ([b ->] & Hl & _ & Hh & _). cbn. rewrite app_nil_r. auto.
  - intros i s0. apply loading_raised_only_at_entry.
Qed.

Lemma retry_pending_reads_not_loading_witness :
  (fix_fails timed_out env_fix_throws /\ retryCount mount_render < MAX_RETRIES) /\
  let '(c, s', t) := getCurrentLocation mount_render env_fix_throws initial in
  c = Returned false /\
  loading s' = false /\
  errorMsg s' = None /\
  timers t = [(GetCurrentLocation mount_render, 2000)] /\
  (exists before,
      t = before ++ [SetTimeout (GetCurrentLocation mount_render) 2000; SetLoading false] /\
      loadings before = [true]) /\
  (forall env',
      let '(_, s'', t') := dispatch (TimerFires (GetCurrentLocation mount_render) env') s' in
      hd_error t' = Some (SetLoading true) /\ loading s'' = false) /\
  (forall (i : Input) (s0 : State),
      let t0 := snd (dispatch i s0) in
      loadings t0 = [] \/
      (hd_error t0 = Some (SetLoading true) /\ loadings t0 = [true; false])).
Proof.
  assert (Hf : fix_fails timed_out env_fix_throws) by (repeat split).
  assert (Hlt : retryCount mount_render < MAX_RETRIES) by reflexivity.
  split; [split; assumption |].
  exact (retry_pending_reads_not_loading mount_render env_fix_throws initial timed_out Hf Hlt).
Defined.

Lemma failed_iter_retryCount (k : nat) (s : State) :
  retryCount (Nat.iter k failed_once s) = retryCount s + Z.of_nat k.
Proof.
  induction k as [|k IH].
  - cbn. lia.
  - rewrite Nat.iter_succ. cbn [failed_once retryCount]. rewrite IH. lia.
Qed.

Lemma failed_iter_location (k : nat) (s : State) :
  location (Nat.iter k failed_once s) = location s.
Proof.
  induction k as [|k IH]; [reflexivity|].
  rewrite Nat.iter_succ. cbn [failed_once location]. exact IH.
Qed.

(** No timer is registered before the position fix is requested. *)
Lemma timers_before_fix (env : Env) (rest : Trace) :
  timers (SetLoading true :: SetErrorMsg None :: AwaitHasServicesEnabled ::
          permission_request env :: rest) = timers rest.
Proof. unfold permission_request. destruct (Platform_OS env); reflexivity. Qed.

(** One step of a run: a failed fix read at a counter below the bound is
    followed by the timer's invocation, in the same closure. *)
Lemma acquisition_run_retry (render : State) (env : Env) (rest : list Env) (s : State) (e : Error) :
  fix_fails e env -> retryCount render < MAX_RETRIES ->
  exists t,
    timers t = [(GetCurrentLocation render, 2000)] /\
    acquisition_run (GetCurrentLocation render) (env :: rest) s =
      (Returned false, failed_once s, t) ::
      acquisition_run (GetCurrentLocation render) rest (failed_once s).
Proof.
  intros Hf Hlt. cbn [acquisition_run].
  rewrite fix_fails_retry_outcome with (e := e) by assumption.
  rewrite timers_before_fix. cbn [timers].
  eexists. split; [|reflexivity].
  rewrite timers_before_fix. reflexivity.
Qed.

(** A run of failing fixes in a closure that reads a counter below the
    bound: every failure adds one to the counter and registers one timer of
    2000 ms for the same closure, however many failures there are. *)
Lemma acquisition_run_failures (render : State) (fails rest : list Env) :
  retryCount render < MAX_RETRIES ->
  Forall (fun env => exists e, fix_fails e env) fails ->
  forall s, exists attempts,
    acquisition_run (GetCurrentLocation render) (fails ++ rest) s =
      attempts ++
      acquisition_run (GetCurrentLocation render) rest
        (Nat.iter (length fails) failed_once s) /\
    length attempts = length fails /\
    forall i c s_i t,
      nth_error attempts i = Some (c, s_i, t) ->
      c = Returned false /\
      s_i = Nat.iter (S i) failed_once s /\
      timers t = [(GetCurrentLocation render, 2000)].
Proof.
  intros Hlt Hall. induction Hall as [|env fails [e He] _ IH]; intros s.
  - exists []. repeat split; destruct i; discriminate.
  - destruct (acquisition_run_retry render env (fails ++ rest) s e He Hlt)
      as (t & Ht & Hrun).
    destruct (IH (failed_once s)) as (attempts & Hrest & Hlen & Hnth).
    exists ((Returned false, failed_once s, t) :: attempts).
    split; [|split].
    + cbn [app length]. rewrite Hrun, Hrest.
      rewrite Nat.iter_succ_r. reflexivity.
    + cbn. now rewrite Hlen.
    + intros [|j] c s_j t' Hi; cbn in Hi.
      * injection Hi as <- <- <-. auto.
      * destruct (Hnth j c s_j t' Hi) as (-> & -> & Htm).
        repeat split; [|exact Htm].
        rewrite <- Nat.iter_succ_r. reflexivity.
Qed.

(** C5.  A run that starts with the retry counter at 0, in which the fix
    fails at most 3 times and then succeeds: the i-th failure leaves the
    counter at i (one more than before it) and registers exactly one timer,
    of 2000 ms, for the next attempt; the successful attempt sets the
    counter to 0 and stores the position the fix returned. *)
Theorem retries_count_up_then_reset
    (render s : State) (fails : list Env) (ok : Env) (loc : LocationObject) :
  retryCount render = 0 ->
  retryCount s = 0 ->
  (length fails <= 3)%nat ->
  Forall (fun env => exists e, fix_fails e env) fails ->
  fix_succeeds loc ok ->
  let attempts := acquisition_run (GetCurrentLocation render) (fails ++ [ok]) s in
  length attempts = S (length fails) /\
  (forall i c s_i t,
      (i < length fails)%nat ->
      nth_error attempts i = Some (c, s_i, t) ->
      c = Returned false /\
      retryCount s_i = Z.of_nat (S i) /\
      location s_i = location s /\
      timers t = [(GetCurrentLocation render, 2000)]) /\
  (exists s' t,
      nth_error attempts (length fails) = Some (Returned true, s', t) /\
      retryCount s' = 0 /\
      location s' = Some loc /\
      timers t = []).
Proof.
  intros Hr Hs _ Hall Hok.
  assert (Hlt : retryCount render < MAX_RETRIES) by (rewrite Hr; reflexivity).
  destruct (acquisition_run_failures render fails [ok] Hlt Hall s)
    as (attempts & Hrun & Hlen & Hnth).
  cbn zeta. rewrite Hrun. cbn [acquisition_run].
  rewrite fix_succeeds_outcome with (loc := loc) by assumption.
  rewrite timers_before_fix. cbn [timers].
  split; [|split].
  - rewrite length_app, Hlen. cbn. lia.
  - intros i c s_i t Hi Hnth_i.
    rewrite nth_error_app1 in Hnth_i by lia.
    destruct (Hnth i c s_i t Hnth_i) as (-> & -> & Ht).
    rewrite failed_iter_retryCount, failed_iter_location, Hs.
    repeat split. exact Ht.
  - eexists. eexists. rewrite nth_error_app2 by lia.
    rewrite Hlen, Nat.sub_diag. cbn [nth_error].
    split; [reflexivity|]. cbn [retryCount location]. repeat split.
    rewrite timers_before_fix. reflexivity.
Qed.

Lemma retries_count_up_then_reset_witness :
  (retryCount mount_render = 0 /\ retryCount initial = 0 /\
   (length [env_fix_throws] <= 3)%nat /\
   Forall (fun env => exists e, fix_fails e env) [env_fix_throws] /\
   fix_succeeds sample_fix env_fix_ok) /\
  let attempts :=
    acquisition_run (GetCurrentLocation mount_render)
      ([env_fix_throws] ++ [env_fix_ok]) initial in
  length attempts = 2%nat /\
  (forall i c s_i t,
      (i < 1)%nat ->
      nth_error attempts i = Some (c, s_i, t) ->
      c = Returned false /\
      retryCount s_i = Z.of_nat (S i) /\
      location s_i = location initial /\
      timers t = [(GetCurrentLocation mount_render, 2000)]) /\
  (exists s' t,
      nth_error attempts 1 = Some (Returned true, s', t) /\
      retryCount s' = 0 /\
      location s' = Some sample_fix /\
      timers t = []).
Proof.
  assert (Hr : retryCount mount_render = 0) by reflexivity.
  assert (Hs : retryCount initial = 0) by reflexivity.
  assert (Hk : (length [env_fix_throws] <= 3)%nat) by (cbn; lia).
  assert (Hall : Forall (fun env => exists e, fix_fails e env) [env_fix_throws]).
  { constructor; [|constructor]. exists timed_out. repeat split. }
  assert (Hok : fix_succeeds sample_fix env_fix_ok) by (repeat split).
  split; [repeat split; assumption |].
  exact (retries_count_up_then_reset mount_render initial [env_fix_throws]
           env_fix_ok sample_fix Hr Hs Hk Hall Hok).
Defined.

(** The scenario of the specification, evaluated: the fix fails once and
    succeeds on the second attempt. *)
Example fix_succeeds_on_second_attempt :
  map (fun a : Attempt => (fst (fst a), retryCount (snd (fst a)),
                           location (snd (fst a)), map snd (timers (snd a))))
      (acquisition_run (GetCurrentLocation mount_render)
         [env_fix_throws; env_fix_ok] initial)
  = [(Returned false, 1, None, [2000]);
     (Returned true, 0, Some sample_fix, [])].
Proof. reflexivity. Qed.

Example three_failures_then_success :
  map (fun a : Attempt => (fst (fst a), retryCount (snd (fst a)),
                           location (snd (fst a)), map snd (timers (snd a))))
      (acquisition_run (GetCurrentLocation mount_render)
         [env_fix_throws; env_fix_throws; env_fix_throws; env_fix_ok] initial)
  = [(Returned false, 1, None, [2000]);
     (Returned false, 2, None, [2000]);
     (Returned false, 3, None, [2000]);
     (Returned true, 0, Some sample_fix, [])].
Proof. reflexivity. Qed.

(** C1, as stated, fails: in the run started at mount, the third consecutive
    failed fix registers one more timer, records no error and raises no
    alert. *)
Lemma third_failure_still_retries :
  exists s3 t3,
    nth_error
      (acquisition_run (GetCurrentLocation mount_render)
         [env_fix_throws; env_fix_throws; env_fix_throws] initial) 2
    = Some (Returned false, s3, t3) /\
    timers t3 = [(GetCurrentLocation mount_render, 2000)] /\
    errorMsg s3 = None /\
    alerts t3 = [] /\
    ~ surfaces_terminal_error (Returned false, s3, t3).
Proof.
  eexists. eexists. split; [reflexivity|].
  repeat split. intros (H & _). discriminate H.
Qed.

(** C1, amended.  An invocation whose fix fails while the retry counter it
    reads has reached [MAX_RETRIES] registers no timer; it records the
    error-severity descriptor whose message is "Failed to get location: "
    followed by the cause, and raises the alert. *)
Theorem exhausted_retries_surface_error
    (render : State) (env : Env) (s : State) (e : Error) :
  fix_fails e env ->
  MAX_RETRIES <= retryCount render ->
  let '(c, s', t) := getCurrentLocation render env s in
  c = Returned false /\
  timers t = [] /\
  errorMsg s' = Some {|
    message := ("Failed to get location: " ++ Js.message e)%string;
    type := error |} /\
  alerts t = [("Location Error", "Unable to get your location. Please try again.")] /\
  surfaces_terminal_error (c, s', t).
Proof.
  intros Hf Hge.
  rewrite fix_fails_terminal_outcome with (e := e) by assumption.
  unfold surfaces_terminal_error.
  assert (Ht : timers
            [SetLoading true; SetErrorMsg None; AwaitHasServicesEnabled;
             permission_request env; AwaitGetCurrentPosition High;
             ConsoleError "Error getting location:" e;
             SetErrorMsg (Some (terminal_error e));
             AlertAlert "Location Error" "Unable to get your location. Please try again.";
             SetLoading false] = [])
    by (rewrite timers_before_fix; reflexivity).
  assert (Ha : alerts
            [SetLoading true; SetErrorMsg None; AwaitHasServicesEnabled;
             permission_request env; AwaitGetCurrentPosition High;
             ConsoleError "Error getting location:" e;
             SetErrorMsg (Some (terminal_error e));
             AlertAlert "Location Error" "Unable to get your location. Please try again.";
             SetLoading false]
            = [("Location Error", "Unable to get your location. Please try again.")])
    by (unfold permission_request; destruct (Platform_OS env); reflexivity).
  rewrite Ht, Ha. cbn [errorMsg]. repeat split. now exists e.
Qed.

Lemma exhausted_retries_surface_error_witness :
  (fix_fails timed_out env_fix_throws /\
   MAX_RETRIES <= retryCount three_retries_counted) /\
  let '(c, s', t) :=
    getCurrentLocation three_retries_counted env_fix_throws three_retries_counted in
  c = Returned false /\
  timers t = [] /\
  errorMsg s' = Some {|
    message := "Failed to get location: Location request timed out";
    type := error |} /\
  alerts t = [("Location Error", "Unable to get your location. Please try again.")] /\
  surfaces_terminal_error (c, s', t).
Proof.
  assert (Hf : fix_fails timed_out env_fix_throws) by (repeat split).
  assert (Hge : MAX_RETRIES <= retryCount three_retries_counted)
    by (cbn; discriminate).
  split; [split; assumption |].
  exact (exhausted_retries_surface_error three_retries_counted env_fix_throws
           three_retries_counted timed_out Hf Hge).
Defined.

(** The same through the refresh button, pressed once the counter shows 3:
    the handler is the one of the render on screen. *)
Example refresh_after_three_retries :
  let '(_, s', t) := dispatch (PressRefresh env_fix_throws) three_retries_counted in
  timers t = [] /\
  errorMsg s' = Some (terminal_error timed_out) /\
  retryCount s' = 3.
Proof. repeat split. Qed.

(** ** Reporting the position *)

(** C4.  While no position has been acquired, every invocation of the report
    operation (from the socket callback or from the render on screen) raises
    the error alert, issues no HTTP request and returns normally, leaving the
    hook state untouched. *)
Theorem report_without_position (s render : State) (env : Env) :
  location s = None ->
  live_render s render ->
  let '(c, s', t) := sendLocationToServer render env s in
  c = Returned tt /\
  s' = s /\
  alerts t = [("Error", "Location data is not available. Please refresh your location.")] /\
  posts t = [].
Proof.
  intros Hnone Hlive.
  assert (Hr : location render = None).
  { destruct Hlive as [-> | ->]; [reflexivity | exact Hnone]. }
  unfold sendLocationToServer. rewrite Hr. cbn. repeat split.
Qed.

Lemma report_without_position_witness :
  (location initial = None /\ live_render initial mount_render) /\
  let '(c, s', t) := sendLocationToServer mount_render env_fix_ok initial in
  c = Returned tt /\
  s' = initial /\
  alerts t = [("Error", "Location data is not available. Please refresh your location.")] /\
  posts t = [].
Proof.
  assert (Hn : location initial = None) by reflexivity.
  assert (Hl : live_render initial mount_render) by (left; reflexivity).
  split; [split; assumption |].
  exact (report_without_position initial mount_render env_fix_ok Hn Hl).
Defined.





(** Whatever render it runs in, the report raises the "Success" alert only
    when a request was made and answered with a truthy [success]. *)
Lemma success_alert_needs_truthy_response (render : State) (env : Env) (s : State) :
  In ("Success", "Location shared successfully via server.")
     (alerts (snd (sendLocationToServer render env s))) ->
  exists loc resp v,
    location render = Some loc /\
    axios_post env = Returned resp /\
    Js.get (data resp) "success" = Returned v /\
    truthy v = true.
Proof.
  unfold sendLocationToServer.
  destruct (location render) as [loc|]; cbn.
  2: { intros [H | []]. discriminate H. }
  unfold try_catch, bind, await, lift; cbn.
  destruct (axios_post env) as [resp|e0]; cbn.
  2: { intros [H | []]. discriminate H. }
  destruct (Js.get (data resp) "success") as [v|e1] eqn:Hget; cbn.
  2: { intros [H | []]. discriminate H. }
  destruct (truthy v) eqn:Htr; cbn.
  - intros _. now exists loc, resp, v.
  - intros [H | []]. discriminate H.
Qed.


Example send_button_success_true :
  dispatch (PressSend (env_post (Returned {| status := 200;
                                             data := Object [("success", Bool true)] |})))
           acquired
  = (Returned tt, acquired,
     [AwaitAxiosPost "https://wss.clusterider.tech/send-location"
        28.6139%float 77.209%float;
      AlertAlert "Success" "Location shared successfully via server."]).
Proof. reflexivity. Qed.

Example send_button_success_false :
  dispatch (PressSend (env_post (Returned {| status := 200;
                                             data := Object [("success", Bool false)] |})))
           acquired
  = (Returned tt, acquired,
     [AwaitAxiosPost "https://wss.clusterider.tech/send-location"
        28.6139%float 77.209%float;
      AlertAlert "Failed" "Failed to send location via server. Please try again."]).
Proof. reflexivity. Qed.

Example send_button_request_throws :
  dispatch (PressSend (env_post (Thrown (mkError "Network Error")))) acquired
  = (Returned tt, acquired,
     [AwaitAxiosPost "https://wss.clusterider.tech/send-location"
        28.6139%float 77.209%float;
      ConsoleError "Error sending location to server:" (mkError "Network Error");
      AlertAlert "Error" "Failed to send location to server. Please try again."]).
Proof. reflexivity. Qed.

(** The socket callback is the one the mount effect installed: it calls the
    [sendLocationToServer] of the first render, in which [location] is
    [null], whatever the hook state has become. *)
Lemma socket_message_outcome (env : Env) (s : State) :
  dispatch (SocketMessage env) s =
    (Returned tt, s,
     [ConsoleLog "Message received from server";
      AlertAlert "Error" "Location data is not available. Please refresh your location."]).
Proof. reflexivity. Qed.

(** C2 does not hold of the code.  After a successful acquisition at mount, an
    inbound socket message, answered by a server that would reply
    [{success: true}], issues no HTTP request and raises the
    missing-location alert instead of the confirmation. *)
Theorem socket_message_after_acquisition_sends_nothing :
  location acquired = Some sample_fix /\
  let '(c, s', t) := dispatch (SocketMessage env_fix_ok) acquired in
  posts t = [] /\
  alerts t = [("Error", "Location data is not available. Please refresh your location.")] /\
  s' = acquired.
Proof. repeat split. Qed.

(** * Further properties *)

(** ** Every course an invocation can take *)

(** An invocation of [getCurrentLocation] ends in one of three ways: the fix
    is stored; nothing is retried; one retry is scheduled. *)
Lemma getCurrentLocation_cases (render : State) (env : Env) (s : State) :
  let '(c, s', t) := getCurrentLocation render env s in
  (exists loc,
      fix_succeeds loc env /\ c = Returned true /\ s' = located loc /\
      timers t = [] /\ alerts t = [] /\ positions t = [Some loc])
  \/
  (c = Returned false /\ positions t = [] /\
   location s' = location s /\ mapRegion s' = mapRegion s /\ loading s' = false /\
   ((timers t = [] /\ retryCount s' = retryCount s) \/
    (timers t = [(GetCurrentLocation render, 2000)] /\
     retryCount s' = retryCount s + 1 /\
     retryCount render < MAX_RETRIES /\
     alerts t = [] /\ errorMsg s' = None /\
     exists e, outer_try_throws e env))).
Proof.
  unfold fix_succeeds, outer_try_throws, fix_fails, services_enabled, permission_granted.
  follow_answers env render;
    first
      [ solve [left; eexists; repeat split]
      | solve [right; repeat split; left; repeat split]
      | solve [right; repeat split; right; repeat split; retry_leaf] ].
Qed.

(** ** What every input does *)

(** How one input changes the hook state: not at all, or as one invocation
    of [getCurrentLocation] does. *)
Lemma dispatch_cases (i : Input) (s : State) :
  let '(c, s', t) := dispatch i s in
  c = Returned tt /\
  ((exists loc, s' = located loc /\ positions t = [Some loc] /\
                is_acquisition i = true)
   \/
   (positions t = [] /\
    location s' = location s /\ mapRegion s' = mapRegion s /\
    (retryCount s' = retryCount s \/ retryCount s' = retryCount s + 1) /\
    (is_acquisition i = true -> loading s' = false) /\
    (is_acquisition i = false -> s' = s))).
Proof.
  assert (Hacq : forall render env,
    let '(c, s', t) := discard (getCurrentLocation render env) s in
    c = Returned tt /\
    ((exists loc, s' = located loc /\ positions t = [Some loc] /\ true = true)
     \/
     (positions t = [] /\
      location s' = location s /\ mapRegion s' = mapRegion s /\
      (retryCount s' = retryCount s \/ retryCount s' = retryCount s + 1) /\
      (true = true -> loading s' = false) /\
      (true = false -> s' = s)))).
  { intros render env. unfold discard, bind.
    pose proof (getCurrentLocation_cases render env s) as H.
    destruct (getCurrentLocation render env s) as [[c s'] t].
    destruct H as [(loc & _ & -> & -> & _ & _ & Hp)
                  | (-> & Hp & Hl & Hm & Hld & Hr)];
      cbn; rewrite app_nil_r; (split; [reflexivity|]).
    - left. exists loc. auto.
    - right. repeat split; auto; try discriminate.
      destruct Hr as [(_ & Hr) | (_ & Hr & _)]; auto. }
  assert (Hsend : forall render env,
    let '(c, s', t) := sendLocationToServer render env s in
    c = Returned tt /\ s' = s /\ positions t = []).
  { intros render env. unfold sendLocationToServer.
    destruct (location render) as [loc|]; cbn; [|auto].
    unfold try_catch, bind, await, lift; cbn.
    destruct (axios_post env) as [resp|e]; cbn; [|auto].
    destruct (Js.get (data resp) "success") as [v|e]; cbn; [|auto].
    destruct (truthy v); cbn; auto. }
  destruct i as [env | env | err | env | env | [render] env]; cbn [dispatch is_acquisition].
  - exact (Hacq mount_render env).
  - cbn. split; [reflexivity|]. right. repeat split; auto; intros; discriminate.
  - cbn. split; [reflexivity|]. right. repeat split; auto; intros; discriminate.
  - exact (Hacq s env).
  - destruct (location s) eqn:Hloc.
    + specialize (Hsend s env).
      destruct (sendLocationToServer s env s) as [[c s'] t].
      destruct Hsend as (-> & -> & Hp). split; [reflexivity|].
      right. repeat split; auto; intros; discriminate.
    + cbn. split; [reflexivity|]. right. repeat split; auto; intros; discriminate.
  - exact (Hacq render env).
Qed.

(** X1.  No input makes a handler end by an exception when what the platform
    throws is an [Error] object, that is a value with a [message]: a
    throwing services check, permission request, position fix or HTTP
    request is then always caught; the same holds of the four socket
    callbacks.  (A thrown [null] or [undefined], on which [error.message]
    cannot be read, is not covered.) *)
Theorem no_exception_escapes (s : State) :
  (forall i : Input, exists s' t, dispatch i s = (Returned tt, s', t)) /\
  (forall render ev, exists t, socket_callback render ev s = (Returned tt, s, t)).
Proof.
  split.
  - intros i. pose proof (dispatch_cases i s) as H.
    destruct (dispatch i s) as [[c s'] t]. destruct H as (-> & _).
    now exists s', t.
  - intros render [ | env | err | ].
    + now eexists.
    + cbn. unfold ws_onmessage, bind; cbn.
      pose proof (sendLocationToServer_trace render env s) as H.
      destruct (sendLocationToServer render env s) as [[c s'] t].
      destruct H as (-> & -> & _). now eexists.
    + now eexists.
    + now eexists.
Qed.

(** X2.  Only the inputs that start an acquisition (mount, refresh button,
    retry timer) touch the hook state: a socket message, a socket error and
    the send button call no setter, register no timer and leave every cell
    as it was. *)
Theorem only_acquisition_changes_state (i : Input) (s : State) :
  is_acquisition i = false ->
  let '(c, s', t) := dispatch i s in
  s' = s /\ setter_calls t = [] /\ timers t = [] /\ fixes t = [].
Proof.
  destruct i as [env | env | err | env | env | [render] env];
    try discriminate; intros _; cbn [dispatch].
  - cbn. auto.
  - cbn. auto.
  - destruct (location s) as [loc|] eqn:Hloc; [|cbn; auto].
    unfold sendLocationToServer. rewrite Hloc.
    unfold try_catch, bind, await, lift; cbn.
    destruct (axios_post env) as [resp|e]; cbn; [|auto].
    destruct (Js.get (data resp) "success") as [v|e]; cbn; [|auto].
    destruct (truthy v); cbn; auto.
Qed.

Lemma only_acquisition_changes_state_witness :
  is_acquisition (PressSend env_fix_ok) = false /\
  let '(c, s', t) := dispatch (PressSend env_fix_ok) acquired in
  s' = acquired /\ setter_calls t = [] /\ timers t = [] /\ fixes t = [].
Proof.
  assert (H : is_acquisition (PressSend env_fix_ok) = false) by reflexivity.
  split; [exact H |].
  exact (only_acquisition_changes_state (PressSend env_fix_ok) acquired H).
Defined.

(** X3.  HTTP requests come from the send button alone, one per press, and
    carry the position stored at that moment; with no position stored the
    press does nothing.  Mount, refresh, timers and socket events never
    post. *)
Theorem posts_come_from_send_button (i : Input) (s : State) :
  posts (snd (dispatch i s)) =
  match i, location s with
  | PressSend _, Some loc =>
      [("https://wss.clusterider.tech/send-location",
        latitude (coords loc), longitude (coords loc))]
  | _, _ => []
  end.
Proof.
  assert (Hacq : forall render env,
             posts (snd (discard (getCurrentLocation render env) s)) = [])
    by (intros r env; follow_answers env r; reflexivity).
  destruct i as [env | env | err | env | env | [render] env]; cbn [dispatch].
  - rewrite Hacq. destruct (location s); reflexivity.
  - destruct (location s); reflexivity.
  - destruct (location s); reflexivity.
  - rewrite Hacq. destruct (location s); reflexivity.
  - destruct (location s) as [loc|] eqn:Hloc; [|reflexivity].
    unfold sendLocationToServer. rewrite Hloc.
    unfold try_catch, bind, await, lift; cbn.
    destruct (axios_post env) as [resp|e]; cbn; [|reflexivity].
    destruct (Js.get (data resp) "success") as [v|e]; cbn; [|reflexivity].
    destruct (truthy v); reflexivity.
  - rewrite Hacq. destruct (location s); reflexivity.
Qed.

(** ** Sequences of inputs *)

Lemma positions_app (t1 t2 : Trace) :
  positions (t1 ++ t2) = positions t1 ++ positions t2.
Proof.
  induction t1 as [|ev t1 IH]; [reflexivity|].
  destruct ev; cbn; rewrite IH; reflexivity.
Qed.

Lemma last_cons_default {A} (a : A) (l : list A) (d : A) :
  last (a :: l) d = last l a.
Proof.
  revert a d. induction l as [|b l IH]; intros a d; [reflexivity|].
  change (last (b :: l) d = last (b :: l) a). now rewrite !IH.
Qed.

Lemma last_app_default {A} (l1 l2 : list A) (d : A) :
  last (l1 ++ l2) d = last l2 (last l1 d).
Proof.
  revert d. induction l1 as [|a l1 IH]; intros d; [reflexivity|].
  rewrite <- app_comm_cons, !last_cons_default. apply IH.
Qed.

(** X4.  Whatever the screen reacts to, in whatever order, the stored
    position and the map region stay together (both absent, or the region
    centred on the stored position with deltas 0.01), and the retry counter
    never goes below zero. *)
Theorem state_stays_coherent (inputs : list Input) (s : State) :
  coherent s -> coherent (fst (run inputs s)).
Proof.
  revert s. induction inputs as [|i rest IH]; intros s Hs; [exact Hs|].
  cbn [run]. pose proof (dispatch_cases i s) as H.
  destruct (dispatch i s) as [[c s1] t1].
  specialize (IH s1). destruct (run rest s1) as [s2 t2]. cbn [fst] in *.
  apply IH. destruct Hs as (Hr & Hm).
  destruct H as (_ & [(loc & -> & _) | (_ & Hl & Hmr & Hrc & _)]).
  - split; [cbn; lia | reflexivity].
  - split; [lia|]. rewrite Hl, Hmr. exact Hm.
Qed.

Lemma state_stays_coherent_witness :
  coherent initial /\ coherent (fst (run sample_inputs initial)).
Proof.
  assert (H : coherent initial) by (split; [cbn; lia | reflexivity]).
  split; [exact H | exact (state_stays_coherent sample_inputs initial H)].
Defined.

(** X5.  Over any sequence of inputs the stored position is the argument of
    the last [setLocation] call, every such argument is a position (never
    [null]), and so a position once stored is never lost. *)
Theorem stored_position_is_last_fix (inputs : list Input) (s : State) :
  let '(s', t) := run inputs s in
  location s' = last (positions t) (location s) /\
  Forall (fun l => l <> None) (positions t) /\
  (location s <> None -> location s' <> None).
Proof.
  revert s. induction inputs as [|i rest IH]; intros s.
  - cbn. auto.
  - cbn [run]. pose proof (dispatch_cases i s) as H.
    destruct (dispatch i s) as [[c s1] t1].
    specialize (IH s1). destruct (run rest s1) as [s2 t2].
    destruct IH as (IHl & IHf & IHn).
    rewrite positions_app, last_app_default.
    destruct H as (_ & [(loc & -> & Hp & _) | (Hp & Hl & _)]); rewrite Hp.
    + cbn [last located location] in *. repeat split.
      * exact IHl.
      * constructor; [discriminate | exact IHf].
      * intros _. apply IHn. discriminate.
    + cbn [last app]. rewrite <- Hl. repeat split.
      * exact IHl.
      * exact IHf.
      * exact IHn.
Qed.

(** X6.  Once an acquisition has been started and has run to its end, the
    hook state reads not-loading after every later input: each invocation
    of [getCurrentLocation] ends by [setLoading(false)] and nothing else
    sets the flag. *)
Theorem loading_false_after_acquisition (inputs : list Input) (s : State) :
  existsb is_acquisition inputs = true ->
  loading (fst (run inputs s)) = false.
Proof.
  assert (Hkeep : forall rest s0, loading s0 = false ->
                                 loading (fst (run rest s0)) = false).
  { induction rest as [|i rest IH]; intros s0 H0; [exact H0|].
    cbn [run]. pose proof (dispatch_cases i s0) as H.
    destruct (dispatch i s0) as [[c s1] t1].
    specialize (IH s1). destruct (run rest s1) as [s2 t2]. cbn [fst] in *.
    apply IH.
    destruct H as (_ & [(loc & -> & _) | (_ & _ & _ & _ & Hacq & Hnot)]);
      [reflexivity|].
    destruct (is_acquisition i); [now apply Hacq | now rewrite Hnot]. }
  revert s. induction inputs as [|i rest IH]; intros s Hex; [discriminate|].
  cbn [run]. cbn [existsb] in Hex.
  pose proof (dispatch_cases i s) as H.
  destruct (dispatch i s) as [[c s1] t1].
  specialize (IH s1). specialize (Hkeep rest s1).
  destruct (run rest s1) as [s2 t2]. cbn [fst] in *.
  destruct (is_acquisition i) eqn:Hi.
  - apply Hkeep.
    destruct H as (_ & [(loc & -> & _) | (_ & _ & _ & _ & Hacq & _)]);
      [reflexivity | now apply Hacq].
  - apply IH. exact Hex.
Qed.

Lemma loading_false_after_acquisition_witness :
  existsb is_acquisition sample_inputs = true /\
  loading (fst (run sample_inputs initial)) = false.
Proof.
  assert (H : existsb is_acquisition sample_inputs = true) by reflexivity.
  split; [exact H | exact (loading_false_after_acquisition sample_inputs initial H)].
Defined.

(** ** More on retries *)

Lemma alerts_before_fix (env : Env) (rest : Trace) :
  alerts (SetLoading true :: SetErrorMsg None :: AwaitHasServicesEnabled ::
          permission_request env :: rest) = alerts rest.
Proof. unfold permission_request. destruct (Platform_OS env); reflexivity. Qed.

Lemma alerts_app (t1 t2 : Trace) : alerts (t1 ++ t2) = alerts t1 ++ alerts t2.
Proof.
  induction t1 as [|ev t1 IH]; [reflexivity|].
  destruct ev; cbn; rewrite IH; reflexivity.
Qed.

Lemma timers_app (t1 t2 : Trace) : timers (t1 ++ t2) = timers t1 ++ timers t2.
Proof.
  induction t1 as [|ev t1 IH]; [reflexivity|].
  destruct ev; cbn; rewrite IH; reflexivity.
Qed.

(** One step of a run, with the trace of the failed attempt spelled out. *)
Lemma acquisition_run_retry_step
    (render : State) (env : Env) (rest : list Env) (s : State) (e : Error) :
  fix_fails e env -> retryCount render < MAX_RETRIES ->
  acquisition_run (GetCurrentLocation render) (env :: rest) s =
    (Returned false, failed_once s,
     [SetLoading true; SetErrorMsg None; AwaitHasServicesEnabled;
      permission_request env; AwaitGetCurrentPosition High;
      ConsoleError "Error getting location:" e;
      SetRetryCount (Updater (fun prev => prev + 1));
      SetTimeout (GetCurrentLocation render) 2000;
      SetLoading false]) ::
    acquisition_run (GetCurrentLocation render) rest (failed_once s).
Proof.
  intros Hf Hlt. cbn [acquisition_run].
  rewrite fix_fails_retry_outcome with (e := e) by assumption.
  rewrite timers_before_fix. reflexivity.
Qed.

(** X7.  The automatic retries never give up.  In a run whose closure read a
    counter below 3 when it was created (the run started at mount reads 0),
    every failed fix, however many there are, registers another timer for
    the same closure, records no error and raises no alert.  The counter in
    the hook state grows by one each time, past 3, as long as it stays
    within the integers a JavaScript number counts exactly (up to 2^53). *)
Theorem automatic_retries_never_give_up (render : State) (fails : list Env) :
  retryCount render < MAX_RETRIES ->
  Forall (fun env => exists e, fix_fails e env) fails ->
  forall s,
  let attempts := acquisition_run (GetCurrentLocation render) fails s in
  length attempts = length fails /\
  Forall (fun a : Attempt =>
            let '(c, s', t) := a in
            c = Returned false /\
            timers t = [(GetCurrentLocation render, 2000)] /\
            alerts t = [] /\
            errors t = [None]) attempts /\
  (0 <= retryCount s ->
   retryCount s + Z.of_nat (length fails) <= 2 ^ 53 ->
   retryCount (last (map (fun a : Attempt => snd (fst a)) attempts) s)
     = retryCount s + Z.of_nat (length fails)).
Proof.
  intros Hlt Hall. induction Hall as [|env fails [e He] _ IH]; intros s.
  - cbn [acquisition_run length map last Z.of_nat].
    split; [reflexivity|]. split; [constructor | intros; lia].
  - rewrite acquisition_run_retry_step with (e := e) by assumption.
    specialize (IH (failed_once s)). destruct IH as (IHlen & IHall & IHlast).
    cbn zeta. split; [|split].
    + cbn [length]. now rewrite IHlen.
    + constructor; [|exact IHall].
      rewrite timers_before_fix, alerts_before_fix. repeat split.
      unfold permission_request. destruct (Platform_OS env); reflexivity.
    + intros H0 Hmax. cbn [map fst snd]. rewrite last_cons_default, IHlast.
      * cbn [retryCount failed_once length]. lia.
      * cbn [retryCount failed_once]. lia.
      * cbn [retryCount failed_once length] in *. lia.
Qed.

Lemma automatic_retries_never_give_up_witness :
  (retryCount mount_render < MAX_RETRIES /\
   Forall (fun env => exists e, fix_fails e env) (repeat env_fix_throws 5)) /\
  let attempts :=
    acquisition_run (GetCurrentLocation mount_render) (repeat env_fix_throws 5) initial in
  length attempts = length (repeat env_fix_throws 5) /\
  Forall (fun a : Attempt =>
            let '(c, s', t) := a in
            c = Returned false /\
            timers t = [(GetCurrentLocation mount_render, 2000)] /\
            alerts t = [] /\
            errors t = [None]) attempts /\
  (0 <= retryCount initial ->
   retryCount initial + Z.of_nat (length (repeat env_fix_throws 5)) <= 2 ^ 53 ->
   retryCount (last (map (fun a : Attempt => snd (fst a)) attempts) initial)
     = retryCount initial + Z.of_nat (length (repeat env_fix_throws 5))).
Proof.
  assert (Hlt : retryCount mount_render < MAX_RETRIES) by reflexivity.
  assert (Hall : Forall (fun env => exists e, fix_fails e env) (repeat env_fix_throws 5)).
  { repeat constructor; exists timed_out; repeat split. }
  split; [split; assumption |].
  exact (automatic_retries_never_give_up mount_render (repeat env_fix_throws 5)
           Hlt Hall initial).
Defined.

(** The refresh button pressed at the bound, the fix failing. *)
Lemma refresh_at_bound_outcome (env : Env) (s : State) (e : Error) :
  fix_fails e env -> MAX_RETRIES <= retryCount s ->
  dispatch (PressRefresh env) s =
    (Returned tt,
     {| location := location s; errorMsg := Some (terminal_error e);
        mapRegion := mapRegion s; loading := false; retryCount := retryCount s |},
     [SetLoading true; SetErrorMsg None; AwaitHasServicesEnabled;
      permission_request env; AwaitGetCurrentPosition High;
      ConsoleError "Error getting location:" e;
      SetErrorMsg (Some (terminal_error e));
      AlertAlert "Location Error" "Unable to get your location. Please try again.";
      SetLoading false]).
Proof.
  intros Hf Hge. cbn [dispatch]. unfold discard, bind.
  rewrite fix_fails_terminal_outcome with (e := e) by assumption.
  reflexivity.
Qed.

(** X8.  Once the counter shows 3 or more, every press of the refresh button
    whose fix fails ends in the terminal error and its alert, schedules
    nothing and leaves the counter where it is: only a successful fix brings
    it back to 0. *)
Theorem refresh_after_exhaustion (fails : list Env) :
  Forall (fun env => exists e, fix_fails e env) fails ->
  forall s,
  MAX_RETRIES <= retryCount s ->
  let '(s', t) := run (map PressRefresh fails) s in
  retryCount s' = retryCount s /\
  location s' = location s /\
  timers t = [] /\
  alerts t = repeat ("Location Error", "Unable to get your location. Please try again.")
                    (length fails).
Proof.
  intros Hall. induction Hall as [|env fails [e He] _ IH]; intros s Hge.
  - cbn. auto.
  - cbn [map run].
    rewrite refresh_at_bound_outcome with (e := e) by assumption.
    match goal with |- context [run _ ?st] =>
      specialize (IH st Hge); destruct (run (map PressRefresh fails) st) as [s2 t2]
    end.
    destruct IH as (IHr & IHl & IHt & IHa).
    rewrite timers_app, alerts_app.
    rewrite timers_before_fix, alerts_before_fix, IHt, IHa.
    cbn in *. auto.
Qed.

Lemma refresh_after_exhaustion_witness :
  (Forall (fun env => exists e, fix_fails e env) [env_fix_throws; env_fix_throws] /\
   MAX_RETRIES <= retryCount three_retries_counted) /\
  let '(s', t) :=
    run (map PressRefresh [env_fix_throws; env_fix_throws]) three_retries_counted in
  retryCount s' = retryCount three_retries_counted /\
  location s' = location three_retries_counted /\
  timers t = [] /\
  alerts t = repeat ("Location Error", "Unable to get your location. Please try again.")
                    (length [env_fix_throws; env_fix_throws]).
Proof.
  assert (Hall : Forall (fun env => exists e, fix_fails e env)
                        [env_fix_throws; env_fix_throws]).
  { repeat constructor; exists timed_out; repeat split. }
  assert (Hge : MAX_RETRIES <= retryCount three_retries_counted)
    by (cbn; discriminate).
  split; [split; assumption |].
  exact (refresh_after_exhaustion [env_fix_throws; env_fix_throws] Hall
           three_retries_counted Hge).
Defined.

(** X9.  Off Android a permission request that throws is not a denial: it is
    handled like a failed fix.  No fix is requested; below the bound a retry
    is scheduled and no error recorded, at the bound the terminal error is
    recorded with the permission request's own message and the alert is
    raised. *)
Theorem foreground_request_throw_is_retried
    (render : State) (env : Env) (s : State) (e : Error) :
  services_enabled env ->
  Platform_OS env <> android ->
  requestForegroundPermissionsAsync env = Thrown e ->
  let '(c, s', t) := getCurrentLocation render env s in
  c = Returned false /\
  permission_requests t = [ForegroundRequest] /\
  fixes t = [] /\
  (retryCount render < MAX_RETRIES ->
     timers t = [(GetCurrentLocation render, 2000)] /\
     retryCount s' = retryCount s + 1 /\
     errorMsg s' = None /\ alerts t = []) /\
  (MAX_RETRIES <= retryCount render ->
     timers t = [] /\
     retryCount s' = retryCount s /\
     errorMsg s' = Some (terminal_error e) /\
     alerts t = [("Location Error", "Unable to get your location. Please try again.")]).
Proof.
  unfold services_enabled. intros Hs Hos Hf.
  destruct env as [os svc areq freq fx post]; cbn in *; subst.
  unfold getCurrentLocation.
  destruct os; try contradiction; cbn; unfold try_finally, try_catch, bind; cbn;
    destruct (retryCount render <? MAX_RETRIES) eqn:Hb; cbn;
    (apply Z.ltb_lt in Hb || apply Z.ltb_ge in Hb);
    repeat split; intros; try reflexivity; lia.
Qed.

Lemma foreground_request_throw_is_retried_witness :
  (services_enabled env_foreground_throws /\
   Platform_OS env_foreground_throws <> android /\
   requestForegroundPermissionsAsync env_foreground_throws =
     Thrown (mkError "Permission module unavailable")) /\
  let '(c, s', t) := getCurrentLocation mount_render env_foreground_throws initial in
  c = Returned false /\
  permission_requests t = [ForegroundRequest] /\
  fixes t = [] /\
  (retryCount mount_render < MAX_RETRIES ->
     timers t = [(GetCurrentLocation mount_render, 2000)] /\
     retryCount s' = retryCount initial + 1 /\
     errorMsg s' = None /\ alerts t = []) /\
  (MAX_RETRIES <= retryCount mount_render ->
     timers t = [] /\
     retryCount s' = retryCount initial /\
     errorMsg s' = Some (terminal_error (mkError "Permission module unavailable")) /\
     alerts t = [("Location Error", "Unable to get your location. Please try again.")]).
Proof.
  assert (Hs : services_enabled env_foreground_throws) by reflexivity.
  assert (Hos : Platform_OS env_foreground_throws <> android) by discriminate.
  assert (Hf : requestForegroundPermissionsAsync env_foreground_throws =
               Thrown (mkError "Permission module unavailable")) by reflexivity.
  split; [repeat split; assumption |].
  exact (foreground_request_throw_is_retried mount_render env_foreground_throws initial
           (mkError "Permission module unavailable") Hs Hos Hf).
Defined.

(** X10.  A timer or an alert is the doing of the outer [catch] alone: an
    invocation that registers a timer or raises an alert is one in which the
    position fix threw or, off Android, the permission request did.
    Disabled services, a throwing services check and a refused permission
    never cause either. *)
Theorem retry_and_alert_only_after_exception
    (render : State) (env : Env) (s : State) :
  timers (snd (getCurrentLocation render env s)) <> [] \/
  alerts (snd (getCurrentLocation render env s)) <> [] ->
  exists e, outer_try_throws e env.
Proof.
  unfold outer_try_throws, fix_fails, services_enabled, permission_granted.
  follow_answers env render;
    (intros [H | H]; try (exfalso; apply H; reflexivity); retry_leaf).
Qed.

Lemma retry_and_alert_only_after_exception_witness :
  (timers (snd (getCurrentLocation mount_render env_fix_throws initial)) <> [] \/
   alerts (snd (getCurrentLocation mount_render env_fix_throws initial)) <> []) /\
  exists e, outer_try_throws e env_fix_throws.
Proof.
  assert (H : timers (snd (getCurrentLocation mount_render env_fix_throws initial)) <> [] \/
              alerts (snd (getCurrentLocation mount_render env_fix_throws initial)) <> [])
    by (left; discriminate).
  split; [exact H |].
  exact (retry_and_alert_only_after_exception mount_render env_fix_throws initial H).
Defined.

(** X11.  What a successful acquisition writes.  After the fix has returned
    and with no suspension in between, the invocation stores the position,
    the map region centred on it with deltas 0.01 and the counter 0, and
    ends by [setLoading(false)]; these four cells hold those values when it
    returns.  It calls [setErrorMsg] only at entry, with [null], requests
    exactly one fix, at high accuracy, raises no alert and registers no
    timer. *)
Theorem successful_fix_overwrites_state
    (render : State) (env : Env) (s : State) (loc : LocationObject) :
  fix_succeeds loc env ->
  let '(c, s', t) := getCurrentLocation render env s in
  c = Returned true /\
  (exists before,
      t = before ++
          [AwaitGetCurrentPosition High;
           SetLocation (Some loc);
           SetMapRegion (Some (region_of loc));
           SetRetryCount (NewValue 0);
           SetLoading false] /\
      setter_calls before = [SetLoading true; SetErrorMsg None] /\
      fixes before = []) /\
  location s' = Some loc /\
  mapRegion s' = Some (region_of loc) /\
  retryCount s' = 0 /\
  loading s' = false /\
  errors t = [None] /\
  alerts t = [] /\
  timers t = [].
Proof.
  intros H. rewrite fix_succeeds_outcome with (loc := loc) by assumption.
  rewrite alerts_before_fix, timers_before_fix.
  split; [reflexivity|]. split.
  - exists [SetLoading true; SetErrorMsg None; AwaitHasServicesEnabled;
            permission_request env].
    unfold permission_request. destruct (Platform_OS env); repeat split.
  - unfold permission_request. destruct (Platform_OS env); repeat split.
Qed.

Lemma successful_fix_overwrites_state_witness :
  fix_succeeds sample_fix env_fix_ok /\
  let '(c, s', t) :=
    getCurrentLocation three_retries_counted env_fix_ok three_retries_counted in
  c = Returned true /\
  (exists before,
      t = before ++
          [AwaitGetCurrentPosition High;
           SetLocation (Some sample_fix);
           SetMapRegion (Some (region_of sample_fix));
           SetRetryCount (NewValue 0);
           SetLoading false] /\
      setter_calls before = [SetLoading true; SetErrorMsg None] /\
      fixes before = []) /\
  location s' = Some sample_fix /\
  mapRegion s' = Some (region_of sample_fix) /\
  retryCount s' = 0 /\
  loading s' = false /\
  errors t = [None] /\
  alerts t = [] /\
  timers t = [].
Proof.
  assert (H : fix_succeeds sample_fix env_fix_ok) by (repeat split).
  split; [exact H |].
  exact (successful_fix_overwrites_state three_retries_counted env_fix_ok
           three_retries_counted sample_fix H).
Defined.

(** ** Order of the platform calls *)

(** X12.  Each invocation checks the services exactly once; it asks for
    permission (through the channel of the platform) only when the services
    are enabled, and requests a fix, always at high accuracy, exactly when
    permission was granted as well.  So no fix is ever requested without
    permission. *)
Theorem platform_calls_in_order (render : State) (env : Env) (s : State) :
  let '(c, s', t) := getCurrentLocation render env s in
  services_checks t = 1%nat /\
  (services_enabled env ->
     permission_requests t =
       [match Platform_OS env with
        | android => AndroidDialog
        | _ => ForegroundRequest
        end]) /\
  (~ services_enabled env -> permission_requests t = [] /\ fixes t = []) /\
  (services_enabled env /\ permission_granted env -> fixes t = [High]) /\
  (fixes t <> [] -> services_enabled env /\ permission_granted env).
Proof.
  unfold services_enabled, permission_granted.
  follow_answers env render; answer_leaf.
Qed.

(** ** The body of the HTTP response *)

(** X13.  What the report makes of a response, by the shape of its body:
    [null] or [undefined] gives the "Error" alert (reading [.success] throws
    and the throw is caught); an object gives "Success" or "Failed" by the
    truthiness of its [success] field, a missing field counting as failure
    and any non-empty string, even "false", as success; any other body
    gives "Failed". *)
Theorem report_by_body_shape
    (render : State) (env : Env) (s : State) (loc : LocationObject)
    (resp : AxiosResponse) :
  location render = Some loc ->
  axios_post env = Returned resp ->
  let '(c, s', t) := sendLocationToServer render env s in
  alerts t =
    [match data resp with
     | Null | Undefined =>
         ("Error", "Failed to send location to server. Please try again.")
     | Object fields =>
         if truthy (lookup "success" fields)
         then ("Success", "Location shared successfully via server.")
         else ("Failed", "Failed to send location via server. Please try again.")
     | _ => ("Failed", "Failed to send location via server. Please try again.")
     end] /\
  (forall fields, data resp = Object fields ->
     (lookup "success" fields = Undefined ->
        alerts t = [("Failed", "Failed to send location via server. Please try again.")]) /\
     (forall x, lookup "success" fields = String x -> x <> "" ->
        alerts t = [("Success", "Location shared successfully via server.")])).
Proof.
  intros Hloc Hpost. unfold sendLocationToServer. rewrite Hloc.
  unfold try_catch, bind, await, lift. rewrite Hpost. cbn.
  destruct (data resp) as [ | | b | n | x | fields]; cbn;
    try (split; [reflexivity | intros fs Hfs; discriminate Hfs]).
  destruct (truthy (lookup "success" fields)) eqn:Htr; cbn;
    (split; [reflexivity | intros fs Hfs; injection Hfs as <-; split]).
  - intros Hlk. rewrite Hlk in Htr. discriminate Htr.
  - reflexivity.
  - reflexivity.
  - intros x Hlk Hx. rewrite Hlk in Htr. cbn in Htr.
    destruct (String.eqb_spec x ""); [contradiction | discriminate Htr].
Qed.

Lemma report_by_body_shape_witness :
  (location acquired = Some sample_fix /\
   axios_post env_success_as_text =
     Returned {| status := 200; data := Object [("success", String "false")] |}) /\
  let '(c, s', t) := sendLocationToServer acquired env_success_as_text acquired in
  alerts t =
    [if truthy (lookup "success" [("success", String "false")])
     then ("Success", "Location shared successfully via server.")
     else ("Failed", "Failed to send location via server. Please try again.")] /\
  (forall fields, Object [("success", String "false")] = Object fields ->
     (lookup "success" fields = Undefined ->
        alerts t = [("Failed", "Failed to send location via server. Please try again.")]) /\
     (forall x, lookup "success" fields = String x -> x <> "" ->
        alerts t = [("Success", "Location shared successfully via server.")])).
Proof.
  assert (Hl : location acquired = Some sample_fix) by reflexivity.
  assert (Hp : axios_post env_success_as_text =
               Returned {| status := 200; data := Object [("success", String "false")] |})
    by reflexivity.
  split; [split; assumption |].
  exact (report_by_body_shape acquired env_success_as_text acquired sample_fix _ Hl Hp).
Defined.

(** ** The screen *)

Lemma or_empty_some (x : string) : or_empty (Some x) = x.
Proof.
  unfold or_empty. cbn. destruct (String.eqb_spec x ""); [now subst | reflexivity].
Qed.

(** The buttons of the render on screen call that render's handlers. *)
Lemma press_is_dispatch (toString : number -> string) (env : Env) (s : State) :
  press (refreshButton (LocationApp toString s)) env s = dispatch (PressRefresh env) s /\
  press (sendButton (LocationApp toString s)) env s = dispatch (PressSend env) s.
Proof.
  split; [reflexivity|].
  unfold press. cbn. destruct (location s); reflexivity.
Qed.

(** X14.  The screen never shows the error descriptor or the retry counter:
    two hook states that agree on [loading], [location] and [mapRegion] give
    the same content and the same send button, whatever their [errorMsg] and
    [retryCount]. *)
Theorem screen_ignores_error_and_counter
    (toString : number -> string) (s1 s2 : State) :
  loading s1 = loading s2 ->
  location s1 = location s2 ->
  mapRegion s1 = mapRegion s2 ->
  content (LocationApp toString s1) = content (LocationApp toString s2) /\
  disabled (sendButton (LocationApp toString s1)) =
    disabled (sendButton (LocationApp toString s2)) /\
  iconColor (sendButton (LocationApp toString s1)) =
    iconColor (sendButton (LocationApp toString s2)).
Proof.
  intros Hl Hp Hm. cbn. rewrite Hl, Hp, Hm. auto.
Qed.

Lemma screen_ignores_error_and_counter_witness :
  (loading acquired = loading acquired_then_refused /\
   location acquired = location acquired_then_refused /\
   mapRegion acquired = mapRegion acquired_then_refused) /\
  content (LocationApp (fun _ => "0") acquired) =
    content (LocationApp (fun _ => "0") acquired_then_refused) /\
  disabled (sendButton (LocationApp (fun _ => "0") acquired)) =
    disabled (sendButton (LocationApp (fun _ => "0") acquired_then_refused)) /\
  iconColor (sendButton (LocationApp (fun _ => "0") acquired)) =
    iconColor (sendButton (LocationApp (fun _ => "0") acquired_then_refused)).
Proof.
  assert (Hl : loading acquired = loading acquired_then_refused) by reflexivity.
  assert (Hp : location acquired = location acquired_then_refused) by reflexivity.
  assert (Hm : mapRegion acquired = mapRegion acquired_then_refused) by reflexivity.
  split; [repeat split; assumption |].
  exact (screen_ignores_error_and_counter (fun _ => "0") acquired acquired_then_refused
           Hl Hp Hm).
Defined.

(** X15.  A failed acquisition leaves nothing on the screen: after it the
    content is what the state before it would show once not loading, with
    no trace of the error that was recorded. *)
Theorem failed_attempt_shows_nothing
    (toString : number -> string) (render : State) (env : Env) (s : State) :
  fst (fst (getCurrentLocation render env s)) = Returned false ->
  content (LocationApp toString (snd (fst (getCurrentLocation render env s)))) =
  content (LocationApp toString
             {| location := location s; errorMsg := None; mapRegion := mapRegion s;
                loading := false; retryCount := retryCount s |}).
Proof.
  pose proof (getCurrentLocation_cases render env s) as H.
  destruct (getCurrentLocation render env s) as [[c s'] t].
  destruct H as [(loc & _ & -> & _) | (_ & _ & Hl & Hm & Hld & _)].
  - discriminate.
  - intros _. cbn. rewrite Hl, Hm, Hld. reflexivity.
Qed.

Lemma failed_attempt_shows_nothing_witness :
  fst (fst (getCurrentLocation acquired env_services_disabled acquired)) = Returned false /\
  content (LocationApp (fun _ => "0")
             (snd (fst (getCurrentLocation acquired env_services_disabled acquired)))) =
  content (LocationApp (fun _ => "0")
             {| location := location acquired; errorMsg := None;
                mapRegion := mapRegion acquired;
                loading := false; retryCount := retryCount acquired |}).
Proof.
  assert (H : fst (fst (getCurrentLocation acquired env_services_disabled acquired))
              = Returned false) by reflexivity.
  split; [exact H |].
  exact (failed_attempt_shows_nothing (fun _ => "0") acquired env_services_disabled
           acquired H).
Defined.

(** X16.  In a coherent hook state that is not loading, the screen shows
    either empty coordinate fields and the map placeholder (no position
    stored), or the stored position's coordinates with the map centred on
    them and the marker at the same point; the send button is disabled
    exactly when no position is stored. *)
Theorem screen_matches_stored_position (toString : number -> string) (s : State) :
  coherent s ->
  loading s = false ->
  content (LocationApp toString s) =
    match location s with
    | Some loc =>
        Coordinates
          (toString (latitude (coords loc)))
          (toString (longitude (coords loc)))
          (MapView (region_of loc) true
             {| coordinate_latitude := latitude (coords loc);
                coordinate_longitude := longitude (coords loc);
                title := "Your Location" |})
    | None => Coordinates "" "" (MapPlaceholder "map-pin" "Map loading...")
    end /\
  (disabled (sendButton (LocationApp toString s)) = true <-> location s = None).
Proof.
  intros (_ & Hm) Hl. cbn [LocationApp content sendButton disabled].
  rewrite Hl. destruct (location s) as [loc|]; rewrite Hm.
  - cbn [option_map]. rewrite !or_empty_some. split; [reflexivity|].
    split; discriminate.
  - split; [reflexivity|]. split; reflexivity.
Qed.

Lemma screen_matches_stored_position_witness :
  (coherent acquired /\ loading acquired = false) /\
  content (LocationApp (fun _ => "0") acquired) =
    match location acquired with
    | Some loc =>
        Coordinates
          ((fun _ => "0") (latitude (coords loc)))
          ((fun _ => "0") (longitude (coords loc)))
          (MapView (region_of loc) true
             {| coordinate_latitude := latitude (coords loc);
                coordinate_longitude := longitude (coords loc);
                title := "Your Location" |})
    | None => Coordinates "" "" (MapPlaceholder "map-pin" "Map loading...")
    end /\
  (disabled (sendButton (LocationApp (fun _ => "0") acquired)) = true <->
   location acquired = None).
Proof.
  assert (Hc : coherent acquired) by (split; [cbn; lia | reflexivity]).
  assert (Hl : loading acquired = false) by reflexivity.
  split; [split; assumption |].
  exact (screen_matches_stored_position (fun _ => "0") acquired Hc Hl).
Defined.

(** ** The socket *)

(** X17.  Whatever the socket reports, the callbacks installed at mount leave
    the hook state as it is, issue no HTTP request, register no timer and
    start no acquisition.  Opening and closing only log; an error raises the
    connection alert and is not followed by a reconnection; a message raises
    the missing-location alert. *)
Theorem socket_callbacks_are_inert (ev : SocketEvent) (s : State) :
  let '(c, s', t) := socket_callback mount_render ev s in
  c = Returned tt /\
  s' = s /\
  posts t = [] /\ timers t = [] /\ fixes t = [] /\ setter_calls t = [] /\
  alerts t =
    match ev with
    | Open | Close => []
    | Message _ =>
        [("Error", "Location data is not available. Please refresh your location.")]
    | Failure _ =>
        [("WebSocket Error", "An error occurred while connecting to the server.")]
    end.
Proof. destruct ev; cbn; repeat split. Qed.

(** ** Overlapping acquisitions *)

(** An acquisition input whose fix fails below the bound. *)
Lemma acquisition_input_retry_outcome (render : State) (env : Env) (s : State) (e : Error) :
  fix_fails e env -> retryCount render < MAX_RETRIES ->
  discard (getCurrentLocation render env) s =
    (Returned tt, failed_once s,
     [SetLoading true; SetErrorMsg None; AwaitHasServicesEnabled;
      permission_request env; AwaitGetCurrentPosition High;
      ConsoleError "Error getting location:" e;
      SetRetryCount (Updater (fun prev => prev + 1));
      SetTimeout (GetCurrentLocation render) 2000;
      SetLoading false]).
Proof.
  intros Hf Hlt. unfold discard, bind.
  rewrite fix_fails_retry_outcome with (e := e) by assumption.
  reflexivity.
Qed.

(** X18.  Nothing keeps two acquisitions apart.  When the first attempt at
    mount fails and the refresh button is pressed (and fails too) before the
    retry timer fires, two timers are pending, one for the closure of the
    first render and one for the closure of the render on screen, and the
    counter has been incremented by both. *)
Theorem refresh_during_retry_starts_second_chain (env1 env2 : Env) (e1 e2 : Error) :
  fix_fails e1 env1 ->
  fix_fails e2 env2 ->
  let '(s', t) := run [Mount env1; PressRefresh env2] initial in
  timers t = [(GetCurrentLocation mount_render, 2000);
              (GetCurrentLocation (failed_once initial), 2000)] /\
  retryCount s' = 2 /\
  loading s' = false.
Proof.
  intros H1 H2. cbn [run dispatch].
  rewrite acquisition_input_retry_outcome with (e := e1) by (assumption || reflexivity).
  rewrite acquisition_input_retry_outcome with (e := e2) by (assumption || reflexivity).
  rewrite !timers_app, !timers_before_fix.
  repeat split.
Qed.

Lemma refresh_during_retry_starts_second_chain_witness :
  (fix_fails timed_out env_fix_throws /\ fix_fails timed_out env_fix_throws) /\
  let '(s', t) := run [Mount env_fix_throws; PressRefresh env_fix_throws] initial in
  timers t = [(GetCurrentLocation mount_render, 2000);
              (GetCurrentLocation (failed_once initial), 2000)] /\
  retryCount s' = 2 /\
  loading s' = false.
Proof.
  assert (H : fix_fails timed_out env_fix_throws) by (repeat split).
  split; [split; exact H |].
  exact (refresh_during_retry_starts_second_chain env_fix_throws env_fix_throws
           timed_out timed_out H H).
Defined.
